(** * Shallow embedding of the DS-PAL analysis engine
    (src/app/services/analysis_engine.py and the column classifier of
    src/app/services/dataset_loader.py).

    Numbers are modelled as exact rationals [Q]; Python's [round] is
    modelled as round-half-to-even on the exact value.  Library calls whose
    behaviour is data dependent (sklearn's k-means, DBSCAN, agglomerative
    clustering, silhouette score, pandas' date and number parsers) are
    parameters of the definitions that use them. *)

From Stdlib Require Import ZArith QArith Qround String Ascii List Bool Lia.
From Stdlib Require Import Sorted Permutation Qminmax Qabs.
Import ListNotations.

Local Open Scope Z_scope.

(** ** Python helpers *)

(** Python's [round(x)]: round half to even. *)
Definition round_half_even (q : Q) : Z :=
  let f := Qfloor q in
  match Qcompare (q - inject_Z f) (1 # 2) with
  | Lt => f
  | Gt => f + 1
  | Eq => if Z.even f then f else f + 1
  end.

(** Python's [round(x, nd)], applied to the exact value [q]. Python
    rounds the exact binary value of a float, so this agrees with it when
    [q] is that value; rounding a decimal that a float only approximates
    can differ at a tie ([round(0.05, 1)] is [0.1] in Python, as the float
    0.05 lies above the tie). The theorems below use it only for bounds
    that hold either way. *)
Definition py_round (q : Q) (nd : Z) : Q :=
  inject_Z (round_half_even (q * inject_Z (10 ^ nd))) / inject_Z (10 ^ nd).

(** Python list indexing [l[i]], negative indices counting from the end;
    [None] is an [IndexError]. *)
Definition py_index {A} (l : list A) (i : Z) : option A :=
  let n := Z.of_nat (length l) in
  if (0 <=? i) && (i <? n) then nth_error l (Z.to_nat i)
  else if (- n <=? i) && (i <? 0) then nth_error l (Z.to_nat (n + i))
  else None.

Fixpoint assoc {A} (k : string) (l : list (string * A)) : option A :=
  match l with
  | [] => None
  | (k', v) :: l' => if String.eqb k k' then Some v else assoc k l'
  end.

Fixpoint mapM {A B} (f : A -> option B) (l : list A) : option (list B) :=
  match l with
  | [] => Some []
  | x :: l' =>
      match f x with
      | None => None
      | Some y => match mapM f l' with None => None | Some ys => Some (y :: ys) end
      end
  end.

(** [sorted(...)] on integers: insertion sort. *)
Fixpoint insert_Z (x : Z) (l : list Z) : list Z :=
  match l with
  | [] => [x]
  | y :: l' => if x <=? y then x :: l else y :: insert_Z x l'
  end.

Fixpoint sort_Z (l : list Z) : list Z :=
  match l with
  | [] => []
  | x :: l' => insert_Z x (sort_Z l')
  end.

(** [set(labels)] for integer labels. *)
Definition set_Z (l : list Z) : list Z := nodup Z.eq_dec l.

(** [(labels == v).sum()] *)
Definition count_eq (v : Z) (l : list Z) : Z :=
  Z.of_nat (length (filter (Z.eqb v) l)).

(** [frame.loc[mask]] on a list of values. *)
Fixpoint select_mask {A} (mask : list bool) (l : list A) : list A :=
  match mask, l with
  | b :: mask', x :: l' => if b then x :: select_mask mask' l' else select_mask mask' l'
  | _, _ => []
  end.

(** Python's [x < y] on numbers. *)
Definition Qlt_bool (x y : Q) : bool := negb (Qle_bool y x).

Definition sum_Q (l : list Q) : Q := fold_right Qplus 0%Q l.

(** pandas [Series.mean()] on a non-empty column without NaN. *)
Definition mean_Q (l : list Q) : Q := sum_Q l / inject_Z (Z.of_nat (length l)).

(** ** Encoding metadata (the dicts of [encoding_info]) *)

Inductive enc_type := EncBoolean | EncDatetime | EncNumericCoerce | EncLabel | EncOneHot.

Record EncodingInfo := {
  original_column : string;
  encoding_type : enc_type;
  new_columns : list string;
  cardinality : Z;
  label_mapping : option (list string)
}.

(** ** Cluster profiler ([profile_clusters]) *)

Inductive centroid_value := CVNum (q : Q) | CVStr (s : string).

(** [ClusterProfile]; [top_features] is not modelled. *)
Record ClusterProfile := {
  cluster_id : Z;
  size : Z;
  percentage : Q;
  centroid : list (string * centroid_value)
}.

(** [label_maps]: later entries overwrite earlier ones, so the newest is
    put first and [assoc] finds it. *)
Definition label_maps (info : list EncodingInfo) : list (string * list string) :=
  fold_left
    (fun acc enc =>
       match encoding_type enc, label_mapping enc with
       | EncLabel, Some m => (original_column enc, m) :: acc
       | _, _ => acc
       end) info [].

(** [mapping[max(0, min(round(raw_mean), len(mapping) - 1))]] *)
Definition label_index (mapping : list string) (raw_mean : Q) : Z :=
  Z.max 0 (Z.min (round_half_even raw_mean) (Z.of_nat (length mapping) - 1)).

Definition label_centroid (mapping : list string) (raw_mean : Q) : option string :=
  py_index mapping (label_index mapping raw_mean).

(** One entry of [centroid]; [None] is a [KeyError] or [IndexError]. *)
Definition centroid_entry (lmaps : list (string * list string))
    (cluster_data : list (string * list Q)) (col : string)
    : option (string * centroid_value) :=
  match assoc col cluster_data with
  | None => None
  | Some vs =>
      let raw_mean := py_round (mean_Q vs) 4 in
      match assoc col lmaps with
      | Some mapping =>
          match label_centroid mapping raw_mean with
          | Some s => Some (col, CVStr s)
          | None => None
          end
      | None => Some (col, CVNum raw_mean)
      end
  end.

Definition profile_one (numeric_df : list (string * list Q)) (labels : list Z)
    (feature_names : list string) (lmaps : list (string * list string))
    (cid : Z) : option ClusterProfile :=
  let mask := map (Z.eqb cid) labels in
  let sz := count_eq cid labels in
  let total := Z.of_nat (length labels) in
  let pct := py_round (inject_Z sz / inject_Z total * inject_Z 100) 1 in
  let cluster_data := map (fun '(c, vs) => (c, select_mask mask vs)) numeric_df in
  match mapM (centroid_entry lmaps cluster_data) feature_names with
  | None => None
  | Some cen => Some {| cluster_id := cid; size := sz; percentage := pct; centroid := cen |}
  end.

Definition profile_clusters (numeric_df : list (string * list Q)) (labels : list Z)
    (feature_names : list string) (info : list EncodingInfo)
    : option (list ClusterProfile) :=
  mapM (profile_one numeric_df labels feature_names (label_maps info))
       (sort_Z (set_Z labels)).

(** ** Outcomes: a returned value or a raised exception *)

Inductive exn :=
  | ValueError (msg : string)
  | KeyError (key : string)
  | LibraryError.

Inductive outcome (A : Type) := Ok (a : A) | Raise (e : exn).
Arguments Ok {A} a.
Arguments Raise {A} e.

(** ** sklearn backends of the clusterer

    [P] is the type of a row of the scaled matrix.  The fit/predict calls
    return [None] when sklearn raises. *)

Record KMeansParams := { km_n_clusters : Z; km_n_init : Z; km_random_state : Z }.

Record Backend (P : Type) := {
  kmeans_fit_predict : KMeansParams -> list P -> option (list Z);
  dbscan_fit_predict : Q -> Z -> list P -> option (list Z);
  agglomerative_fit_predict : Z -> list P -> option (list Z);
  (** median over all rows of the distance to the [k]-th neighbour
      returned by [NearestNeighbors(n_neighbors=k).kneighbors] *)
  knn_median : Z -> list P -> Q;
  (** the mean silhouette coefficient, for admissible labels *)
  silhouette_value : list P -> list Z -> Q
}.
Arguments kmeans_fit_predict {P}.
Arguments dbscan_fit_predict {P}.
Arguments agglomerative_fit_predict {P}.
Arguments knn_median {P}.
Arguments silhouette_value {P}.

Section Clusterer.
Context {P : Type} (B : Backend P).

(** [sklearn.metrics.silhouette_score]: raises unless the lengths agree
    and [2 <= n_labels <= n_samples - 1]. *)
Definition silhouette_score (X : list P) (labels : list Z) : option Q :=
  let n_labels := Z.of_nat (length (set_Z labels)) in
  let n_samples := Z.of_nat (length X) in
  if (length X =? length labels)%nat && (2 <=? n_labels) && (n_labels <=? n_samples - 1)
  then Some (silhouette_value B X labels)
  else None.

(** [range(2, max_k + 1)] of [find_optimal_k] *)
Definition optimal_k_max (n : nat) : Z := Z.max (Z.min 10 (Z.sqrt (Z.of_nat n))) 3.

Definition k_range (n : nat) : list Z :=
  map Z.of_nat (seq 2 (Z.to_nat (optimal_k_max n) - 1)).

(** Body of the [try] block: the score of [k], or [None] when the
    iteration [continue]s (fewer than 2 labels, or an exception). *)
Definition k_score (X : list P) (k : Z) : option Q :=
  match kmeans_fit_predict B {| km_n_clusters := k; km_n_init := 10; km_random_state := 42 |} X with
  | None => None
  | Some labels =>
      if (Z.of_nat (length (set_Z labels)) <? 2) then None
      else silhouette_score X labels
  end.

Definition optimal_k_step (X : list P) (best : Z * Q) (k : Z) : Z * Q :=
  match k_score X k with
  | Some score => if Qle_bool score (snd best) then best else (k, score)
  | None => best
  end.

Definition find_optimal_k (X : list P) : Z :=
  fst (fold_left (optimal_k_step X) (k_range (length X)) (2, (-1)%Q)).




(** [_auto_eps] *)
Definition auto_eps (X : list P) (min_samples : Z) : option Q :=
  let k := Z.min min_samples (Z.of_nat (length X) - 1) in
  if k <=? 0 then None   (* NearestNeighbors(n_neighbors=k) raises *)
  else Some (Qmax (knn_median B k X) (1 # 100)).

Inductive ClusterParams :=
  | PKMeans (n_clusters n_init : Z)
  | PDBSCAN (eps : Q) (min_samples : Z)
  | PHierarchical (n_clusters : Z) (linkage : string).

Definition lib {A} (o : option A) : outcome A :=
  match o with Some a => Ok a | None => Raise LibraryError end.

(** The algorithm dispatch of [cluster]: labels, cluster count, params. *)
Definition cluster_labels (X : list P) (algorithm : string) (n_clusters : option Z)
    : outcome (list Z * Z * ClusterParams) :=
  if String.eqb algorithm "kmeans" then
    let k := match n_clusters with Some k => k | None => find_optimal_k X end in
    match lib (kmeans_fit_predict B {| km_n_clusters := k; km_n_init := 10; km_random_state := 42 |} X) with
    | Raise e => Raise e
    | Ok labels => Ok (labels, k, PKMeans k 10)
    end
  else if String.eqb algorithm "dbscan" then
    let min_samples := Z.max 5 (Z.of_nat (length X) / 100) in
    match lib (auto_eps X min_samples) with
    | Raise e => Raise e
    | Ok eps =>
        match lib (dbscan_fit_predict B eps min_samples X) with
        | Raise e => Raise e
        | Ok labels =>
            let nc := Z.of_nat (length (set_Z labels))
                      - (if existsb (Z.eqb (-1)) labels then 1 else 0) in
            Ok (labels, nc, PDBSCAN (py_round eps 4) min_samples)
        end
    end
  else if String.eqb algorithm "hierarchical" then
    let k := match n_clusters with Some k => k | None => find_optimal_k X end in
    match lib (agglomerative_fit_predict B k X) with
    | Raise e => Raise e
    | Ok labels => Ok (labels, k, PHierarchical k "ward")
    end
  else Raise (ValueError ("Unknown algorithm: " ++ algorithm)).

(** The silhouette stage of [cluster]. *)
Definition cluster_silhouette (X : list P) (labels : list Z) : outcome (option Q) :=
  let unique_labels := remove Z.eq_dec (-1) (set_Z labels) in
  if 2 <=? Z.of_nat (length unique_labels) then
    let mask := map (fun l => negb (l =? -1)) labels in
    if Z.of_nat (length (filter (fun b => b) mask)) >? Z.of_nat (length unique_labels) then
      match lib (silhouette_score (select_mask mask X) (select_mask mask labels)) with
      | Raise e => Raise e
      | Ok s => Ok (Some s)
      end
    else Ok None
  else Ok None.

(** [cluster]: returns [(labels, n_clusters, silhouette, params)]. *)
Definition cluster (X : list P) (algorithm : string) (n_clusters : option Z)
    : outcome (list Z * Z * option Q * ClusterParams) :=
  match cluster_labels X algorithm n_clusters with
  | Raise e => Raise e
  | Ok (labels, nc, params) =>
      match cluster_silhouette X labels with
      | Raise e => Raise e
      | Ok sil => Ok (labels, nc, sil, params)
      end
  end.

End Clusterer.

(** ** A concrete backend on one-dimensional points *)

(** sklearn's silhouette coefficient on points of the real line: for a
    row in a cluster of size 1 the coefficient is 0; otherwise it is
    [(b - a) / max(a, b)] with [a] the mean distance to the other rows of
    its cluster and [b] the smallest mean distance to another cluster. *)
Definition silhouette_1d (X : list Q) (labels : list Z) : Q :=
  let pts := combine X labels in
  let dist_to (x : Q) (c : Z) :=
    sum_Q (map (fun '(y, d) => if d =? c then Qabs (x - y) else 0%Q) pts) in
  let coef '(x, c) :=
    let n_c := count_eq c labels in
    if n_c <=? 1 then 0%Q
    else
      let a := (dist_to x c / inject_Z (n_c - 1))%Q in
      let bs := map (fun c' => (dist_to x c' / inject_Z (count_eq c' labels))%Q)
                    (filter (fun c' => negb (c' =? c)) (set_Z labels)) in
      let b := match bs with [] => 0%Q | h :: t => fold_left Qmin t h end in
      let m := Qmax a b in
      if Qeq_bool m 0 then 0%Q else ((b - a) / m)%Q in
  mean_Q (map coef pts).

(** A backend whose k-means results are given by a table from k to labels;
    the other algorithms put every row in cluster 0. *)
Definition table_backend (table : Z -> option (list Z)) : Backend Q := {|
  kmeans_fit_predict := fun p _ => table (km_n_clusters p);
  dbscan_fit_predict := fun _ _ X => Some (map (fun _ => 0) X);
  agglomerative_fit_predict := fun k _ => table k;
  knn_median := fun _ _ => 1%Q;
  silhouette_value := silhouette_1d
|}.

(** Nine rows at 0, 4 and 5; the k = 2 run separates {0, 4} from {5}, the
    k = 3 run finds only two distinct clusters, {0} and {4, 5}. *)
Definition collapse_X : list Q := [0; 0; 0; 4; 4; 4; 5; 5; 5]%Q.

Definition collapse_table (k : Z) : option (list Z) :=
  if k =? 2 then Some [0; 0; 0; 0; 0; 0; 1; 1; 1]
  else if k =? 3 then Some [0; 0; 0; 1; 1; 1; 1; 1; 1]
  else None.



(** ** Datasets *)

(** A pandas timestamp: [dt_stamp] identifies it, the other fields are
    its [.dt.month], [.dt.dayofweek] and [.dt.hour]. *)
Record datetime := { dt_stamp : Z; dt_month : Z; dt_day_of_week : Z; dt_hour : Z }.

(** A cell; [CNull] is NaN / None / NaT. *)
Inductive cell :=
  | CNull
  | CNum (q : Q)
  | CStr (s : string)
  | CBool (b : bool)
  | CDate (d : datetime).

(** The column dtypes the engine distinguishes: numeric, [bool],
    [datetime64] and [object]. *)
Inductive dtype := DNumber | DBool | DDatetime | DObject.

Record column := { col_name : string; col_dtype : dtype; col_cells : list cell }.

(** A DataFrame: its row count [len(df)] and its columns in order. *)
Record frame := { n_rows : nat; columns : list column }.

Definition col_names (df : frame) : list string := map col_name (columns df).

Fixpoint find_column (c : string) (cols : list column) : option column :=
  match cols with
  | [] => None
  | col :: cols' => if String.eqb c (col_name col) then Some col else find_column c cols'
  end.

Definition is_null (c : cell) : bool := match c with CNull => true | _ => false end.

Definition non_null (l : list cell) : list cell := filter (fun c => negb (is_null c)) l.

(** [Series.count()] *)
Definition count_non_null (l : list cell) : Z := Z.of_nat (length (non_null l)).

(** ** pandas parsers and [str()]

    [pd.to_numeric] / [pd.to_datetime] with [errors="coerce"] applied to
    one non-null cell, and [str()] of a float or timestamp. *)
Record Parsers := {
  parse_number : cell -> option Q;
  parse_datetime : cell -> option datetime;
  num_repr : Q -> string;
  date_repr : datetime -> string
}.

Section Pandas.
Context (pr : Parsers).

Definition to_numeric (c : cell) : option Q :=
  match c with CNull => None | CNum q => Some q | _ => parse_number pr c end.

Definition to_datetime (c : cell) : option datetime :=
  match c with CNull => None | CDate d => Some d | _ => parse_datetime pr c end.

(** [str(x)] of a non-null cell. *)
Definition py_str (c : cell) : string :=
  match c with
  | CNull => "nan"
  | CNum q => num_repr pr q
  | CStr s => s
  | CBool b => if b then "True" else "False"
  | CDate d => date_repr pr d
  end.

End Pandas.

(** Python equality of cells ([True == 1], [False == 0]), which also
    decides hashing in [set] and [nunique]. *)
Definition bool_num (b : bool) : Q := if b then 1%Q else 0%Q.

Definition cell_eqb (a b : cell) : bool :=
  match a, b with
  | CNum x, CNum y => Qeq_bool x y
  | CNum x, CBool c => Qeq_bool x (bool_num c)
  | CBool c, CNum x => Qeq_bool x (bool_num c)
  | CBool x, CBool y => Bool.eqb x y
  | CStr x, CStr y => String.eqb x y
  | CDate x, CDate y => dt_stamp x =? dt_stamp y
  | _, _ => false
  end.

(** [Series.unique()]: distinct values in order of first appearance. *)
Definition unique_cells (l : list cell) : list cell :=
  fold_left (fun acc x => if existsb (cell_eqb x) acc then acc else acc ++ [x]) l [].

(** [Series.dropna().nunique()] *)
Definition nunique (l : list cell) : Z := Z.of_nat (length (unique_cells (non_null l))).

(** [set(non_null.unique()) <= {True, False}] *)
Definition bool_like (c : cell) : bool := cell_eqb c (CBool true) || cell_eqb c (CBool false).

Definition all_bool_like (l : list cell) : bool := forallb bool_like (unique_cells (non_null l)).

(** [series.map({True: 1, False: 0, "True": 1, "False": 0}).fillna(0)] *)
Definition bool_code (c : cell) : Q :=
  match c with
  | CStr s => if String.eqb s "True" then 1%Q else if String.eqb s "False" then 0%Q else 0%Q
  | CNull | CDate _ => 0%Q
  | _ => if cell_eqb c (CBool true) then 1%Q else 0%Q
  end.

(** ** Sorting, medians, decimal strings *)

Fixpoint insert_Q (x : Q) (l : list Q) : list Q :=
  match l with
  | [] => [x]
  | y :: l' => if Qle_bool x y then x :: l else y :: insert_Q x l'
  end.

Definition sort_Q (l : list Q) : list Q := fold_right insert_Q [] l.

(** [Series.median()] over the non-NaN values; [None] when there are none. *)
Definition median_Q (l : list Q) : option Q :=
  let s := sort_Q l in
  let n := length s in
  match n with
  | O => None
  | _ => if Nat.odd n then Some (nth (n / 2) s 0%Q)
         else Some ((nth (n / 2 - 1) s 0%Q + nth (n / 2) s 0%Q) / 2)%Q
  end.

Fixpoint insert_str (x : string) (l : list string) : list string :=
  match l with
  | [] => [x]
  | y :: l' => if String.leb x y then x :: l else y :: insert_str x l'
  end.

Definition sort_str (l : list string) : list string := fold_right insert_str [] l.

Definition unique_str (l : list string) : list string :=
  fold_left (fun acc x => if existsb (String.eqb x) acc then acc else acc ++ [x]) l [].

Fixpoint index_of (x : string) (l : list string) : nat :=
  match l with
  | [] => O
  | y :: l' => if String.eqb x y then O else S (index_of x l')
  end.

Fixpoint digits_of_nat (fuel n : nat) (acc : string) : string :=
  match fuel with
  | O => acc
  | S f =>
      let acc' := String (Ascii.ascii_of_nat (48 + n mod 10)) acc in
      if (n <? 10)%nat then acc' else digits_of_nat f (n / 10) acc'
  end.

(** [str(n)] for a natural number. *)
Definition string_of_nat (n : nat) : string := digits_of_nat (S n) n "".

(** ** Categorical encoder ([encode_categoricals]) *)

Record EncodingResult := {
  encoded_cols : list (string * list Q);
  encoding_info : list EncodingInfo;
  skipped_columns : list (string * string)   (* {"column", "reason"} *)
}.

(** sklearn's [LabelEncoder]: [classes_] is [np.unique], the sorted
    distinct strings, and [transform] maps a string to its index there. *)
Definition le_classes (strs : list string) : list string := sort_str (unique_str strs).

Definition le_transform (classes strs : list string) : list Q :=
  map (fun s => inject_Z (Z.of_nat (index_of s classes))) strs.

(** The label-encoding block, identical at both of its sites
    (high cardinality, and a one-hot candidate downgraded by the cap). *)
Definition label_encode (col : string) (nuniq : Z) (strs : list string)
    : list (string * list Q) * EncodingInfo :=
  let classes := le_classes strs in
  ([(col, le_transform classes strs)],
   {| original_column := col; encoding_type := EncLabel; new_columns := [col];
      cardinality := nuniq; label_mapping := Some classes |}).

(** [pd.get_dummies(series.astype(str), prefix=col, drop_first=True)] *)
Definition one_hot_encode (col : string) (nuniq : Z) (strs : list string)
    : list (string * list Q) * EncodingInfo :=
  let cats := tl (le_classes strs) in
  let dummies := map (fun v => ((col ++ "_" ++ v)%string,
                                map (fun s => if String.eqb s v then 1%Q else 0%Q) strs)) cats in
  (dummies,
   {| original_column := col; encoding_type := EncOneHot; new_columns := map fst dummies;
      cardinality := nuniq; label_mapping := None |}).

(** What the per-column loop does with one column. *)
Inductive col_action :=
  | ASkip (reason : string)
  | AEncode (part : list (string * list Q)) (info : EncodingInfo)
  | ACandidate (nuniq : Z) (strs : list string).

Section Encoder.
Context (pr : Parsers).

Definition datetime_parts (col : string) (dts : list (option datetime)) : list (string * list Q) :=
  let comp (f : datetime -> Z) :=
    map (fun o => match o with Some d => inject_Z (f d) | None => 0%Q end) dts in
  let hour_sum := fold_right Z.add 0 (map (fun o => match o with Some d => dt_hour d | None => 0 end) dts) in
  [((col ++ "_month")%string, comp dt_month); ((col ++ "_day_of_week")%string, comp dt_day_of_week)]
  ++ (if 0 <? hour_sum then [((col ++ "_hour")%string, comp dt_hour)] else []).

(** The body of [for col in cat_df.columns]; [n] is [len(df)]. *)
Definition encode_column (n : nat) (cardinality_threshold : Z) (c : column) : col_action :=
  let col := col_name c in
  let series := col_cells c in
  let nn := non_null series in
  let nuniq := nunique series in
  if nuniq <=? 1 then ASkip "Single value"
  else if (0 <? n)%nat && Qlt_bool (9 # 10) (inject_Z nuniq / inject_Z (Z.of_nat n)) then
    ASkip ("ID-like (" ++ string_of_nat (Z.to_nat nuniq) ++ " unique values)")
  else if match col_dtype c with DBool => true | DObject => all_bool_like series | _ => false end then
    AEncode [(col, map bool_code series)]
      {| original_column := col; encoding_type := EncBoolean; new_columns := [col];
         cardinality := 2; label_mapping := None |}
  else
    let parsed := map (to_datetime pr) series in
    let is_datetime :=
      match col_dtype c with
      | DDatetime => true
      | DObject => (0 <? length nn)%nat &&
                   (length nn <? 2 * length (filter (fun o => match o with Some _ => true | None => false end)
                                                  (map (to_datetime pr) nn)))%nat
      | _ => false
      end in
    if is_datetime then
      let part := datetime_parts col parsed in
      AEncode part
        {| original_column := col; encoding_type := EncDatetime; new_columns := map fst part;
           cardinality := nuniq; label_mapping := None |}
    else
      let nums := map (to_numeric pr) series in
      let n_num := length (filter (fun o => match o with Some _ => true | None => false end)
                                  (map (to_numeric pr) nn)) in
      if match col_dtype c with DObject => (4 * length nn <? 5 * n_num)%nat | _ => false end then
        let med := median_Q (flat_map (fun o => match o with Some q => [q] | None => [] end) nums) in
        let filled := map (fun o => match o, med with
                                    | Some q, _ => q
                                    | None, Some m => m
                                    | None, None => 0%Q end) nums in
        AEncode [(col, filled)]
          {| original_column := col; encoding_type := EncNumericCoerce; new_columns := [col];
             cardinality := nuniq; label_mapping := None |}
      else
        let strs := map (fun x => match x with CNull => "MISSING"%string | _ => py_str pr x end) series in
        if nuniq <=? cardinality_threshold then ACandidate nuniq strs
        else let '(part, info) := label_encode col nuniq strs in AEncode part info.

End Encoder.

(** A one-hot candidate: column name, cardinality, series as strings. *)
Definition candidate := (string * Z * list string)%type.

Definition cand_card (c : candidate) : Z := snd (fst c).

(** [one_hot_candidates.sort(key=lambda x: x[1], reverse=True)]: a stable
    sort by descending cardinality. *)
Fixpoint insert_cand (x : candidate) (l : list candidate) : list candidate :=
  match l with
  | [] => [x]
  | y :: l' => if cand_card y <=? cand_card x then x :: l else y :: insert_cand x l'
  end.

Definition sort_candidates (l : list candidate) : list candidate := fold_right insert_cand [] l.

(** The loop over the sorted one-hot candidates, with the running total
    [current_features]; one (part, info) per candidate. *)
Fixpoint one_hot_phase (current max_total_features : Z) (cands : list candidate)
    : list (list (string * list Q) * EncodingInfo) :=
  match cands with
  | [] => []
  | (col, nuniq, strs) :: rest =>
      let new_cols := nuniq - 1 in
      if current + new_cols >? max_total_features then
        label_encode col nuniq strs :: one_hot_phase (current + 1) max_total_features rest
      else
        let r := one_hot_encode col nuniq strs in
        r :: one_hot_phase (current + Z.of_nat (length (fst r))) max_total_features rest
  end.

(** State of the per-column loop: encoded parts, encoding info, skipped
    columns and one-hot candidates, each in order. *)
Record enc_state := {
  st_parts : list (list (string * list Q));
  st_info : list EncodingInfo;
  st_skipped : list (string * string);
  st_cands : list candidate
}.

Definition enc_step (pr : Parsers) (n : nat) (threshold : Z) (st : enc_state) (c : column) : enc_state :=
  match encode_column pr n threshold c with
  | ASkip reason =>
      {| st_parts := st_parts st; st_info := st_info st;
         st_skipped := st_skipped st ++ [(col_name c, reason)]; st_cands := st_cands st |}
  | AEncode part info =>
      {| st_parts := st_parts st ++ [part]; st_info := st_info st ++ [info];
         st_skipped := st_skipped st; st_cands := st_cands st |}
  | ACandidate nuniq strs =>
      {| st_parts := st_parts st; st_info := st_info st;
         st_skipped := st_skipped st; st_cands := st_cands st ++ [(col_name c, nuniq, strs)] |}
  end.

Definition empty_encoding : EncodingResult :=
  {| encoded_cols := []; encoding_info := []; skipped_columns := [] |}.

(** [encode_categoricals]. The model reads a selected name as the
    first column of that name. When a name is selected twice, or the frame
    has two columns of that name, [cat_df[c].count()] is a Series and its
    comparison with the threshold raises [ValueError] in the source; the
    theorems that depend on it assume distinct names. *)
Definition encode_categoricals (pr : Parsers) (df : frame) (categorical_columns : list string)
    (cardinality_threshold max_total_features : Z) : EncodingResult :=
  match categorical_columns with
  | [] => empty_encoding
  | _ =>
    let cat_cols := filter (fun c => existsb (String.eqb c) (col_names df)) categorical_columns in
    match cat_cols with
    | [] => empty_encoding
    | _ =>
      let cat_df := flat_map (fun c => match find_column c (columns df) with
                                       | Some col => [col] | None => [] end) cat_cols in
      let n := n_rows df in
      (* drop columns with fewer than len * 0.5 non-null values *)
      let valid := filter (fun col => Z.of_nat n <=? 2 * count_non_null (col_cells col)) cat_df in
      let st := fold_left (enc_step pr n cardinality_threshold) valid
                  {| st_parts := []; st_info := []; st_skipped := []; st_cands := [] |} in
      let current := Z.of_nat (length (concat (st_parts st))) in
      let oh := one_hot_phase current max_total_features (sort_candidates (st_cands st)) in
      {| encoded_cols := concat (st_parts st ++ map fst oh);
         encoding_info := st_info st ++ map snd oh;
         skipped_columns := st_skipped st |}
    end
  end.

(** ** Column classifier ([_classify_column] of dataset_loader.py) *)

Record ColumnClassification := {
  cls_cardinality : option Z;
  cls_suggested_encoding : option enc_type;
  cls_is_id_like : bool
}.

(** [pd.api.types.is_numeric_dtype], which holds for [bool] too. *)
Definition is_numeric_dtype (d : dtype) : bool :=
  match d with DNumber | DBool => true | _ => false end.

Definition classify_column (pr : Parsers) (c : column) : ColumnClassification :=
  let series := col_cells c in
  let n_rows := length series in
  let nn := non_null series in
  if is_numeric_dtype (col_dtype c) then
    {| cls_cardinality := None; cls_suggested_encoding := None; cls_is_id_like := false |}
  else if match col_dtype c with DDatetime => true | _ => false end then
    {| cls_cardinality := None; cls_suggested_encoding := None; cls_is_id_like := false |}
  else if match col_dtype c with DBool => true | DObject => all_bool_like series | _ => false end then
    {| cls_cardinality := Some 2; cls_suggested_encoding := Some EncBoolean; cls_is_id_like := false |}
  else
    let nuniq := nunique series in
    if nuniq <=? 1 then
      {| cls_cardinality := Some nuniq; cls_suggested_encoding := None; cls_is_id_like := false |}
    else if (0 <? n_rows)%nat && Qlt_bool (9 # 10) (inject_Z nuniq / inject_Z (Z.of_nat n_rows)) then
      {| cls_cardinality := Some nuniq; cls_suggested_encoding := None; cls_is_id_like := true |}
    else if match col_dtype c with
            | DObject => (4 * length nn <? 5 * length (filter (fun o => match o with Some _ => true | None => false end)
                                                          (map (to_numeric pr) nn)))%nat
            | _ => false end then
      {| cls_cardinality := Some nuniq; cls_suggested_encoding := Some EncNumericCoerce; cls_is_id_like := false |}
    else if nuniq <=? 10 then
      {| cls_cardinality := Some nuniq; cls_suggested_encoding := Some EncOneHot; cls_is_id_like := false |}
    else
      {| cls_cardinality := Some nuniq; cls_suggested_encoding := Some EncLabel; cls_is_id_like := false |}.

(** ** Concrete parsers for evaluation

    [pd.to_numeric] on strings of decimal digits; no string is read as a
    date (the strings used below, such as "a_1" or "red", are not dates
    for [pd.to_datetime] either). *)
Fixpoint parse_digits (s : string) (acc : Z) : option Z :=
  match s with
  | EmptyString => Some acc
  | String ch s' =>
      let d := Z.of_nat (Ascii.nat_of_ascii ch) - 48 in
      if (0 <=? d) && (d <=? 9) then parse_digits s' (10 * acc + d) else None
  end.

Definition plain_parsers : Parsers := {|
  parse_number := fun c =>
    match c with
    | CBool b => Some (bool_num b)
    | CStr EmptyString => None
    | CStr s => option_map inject_Z (parse_digits s 0)
    | _ => None
    end;
  parse_datetime := fun _ => None;
  num_repr := fun q => if Qeq_bool q (inject_Z (Qfloor q)) && (0 <=? Qfloor q)
                       then (string_of_nat (Z.to_nat (Qfloor q)) ++ ".0")%string
                       else "float"%string;
  date_repr := fun d => string_of_nat (Z.to_nat (dt_stamp d))
|}.

Definition str_column (name : string) (vals : list string) : column :=
  {| col_name := name; col_dtype := DObject; col_cells := map CStr vals |}.

(** The two 60-category columns of the feature-cap test: [a_0 .. a_59]
    and [b_0 .. b_59], each repeated three times (180 rows). *)
Definition cap_values (p : string) : list string :=
  map (fun i => (p ++ "_" ++ string_of_nat i)%string) (seq 0 60).

Definition cap_frame : frame :=
  {| n_rows := 180;
     columns := [str_column "cat_a" (cap_values "a" ++ cap_values "a" ++ cap_values "a");
                 str_column "cat_b" (cap_values "b" ++ cap_values "b" ++ cap_values "b")] |}.

(** ** Preprocessor ([preprocess]) *)

Record PreprocessResult := {
  pp_numeric_df : list (string * list (option Q));
  feature_names : list string;
  pp_encoding_info : list EncodingInfo;
  dropped_columns : list (string * string)
}.

Definition somes (vs : list (option Q)) : list Q :=
  flat_map (fun o => match o with Some q => [q] | None => [] end) vs.

(** The numeric values of a numeric column; [None] is NaN. *)
Definition num_values (c : column) : list (option Q) :=
  map (fun x => match x with CNum q => Some q | _ => None end) (col_cells c).

(** [combined_df.var() == 0] in exact arithmetic: the sample variance
    is NaN below two values, and zero exactly when all values are equal.
    pandas computes it in floating point, where a constant column can get
    a tiny nonzero variance (ten copies of 0.1 give about 2.9e-34) and is
    then kept. No theorem below depends on how this test decides a
    constant column. *)
Definition zero_variance (vs : list (option Q)) : bool :=
  match somes vs with
  | x :: (_ :: _) as rest => forallb (fun y => Qeq_bool x y) rest
  | _ => false
  end.

Definition preprocess_error_message (n_features : nat) (dropped : list (string * string)) : string :=
  let dropped_desc := String.concat ", " (map (fun '(c, r) => (c ++ " (" ++ r ++ ")")%string) dropped) in
  let hint := match dropped with [] => ""%string | _ => (" Dropped: " ++ dropped_desc ++ ".")%string end in
  ("Need at least 2 features for analysis, found " ++ string_of_nat n_features ++ "." ++ hint
   ++ " Try selecting more columns or a different dataset.")%string.

Definition preprocess (pr : Parsers) (df : frame) (columns_sel : option (list string))
    (categorical_columns : option (list string)) : outcome PreprocessResult :=
  let is_num (c : column) := match col_dtype c with DNumber => true | _ => false end in
  let sel :=
    match columns_sel with
    | None => Ok (filter is_num (columns df))
    | Some [] => Ok []
    | Some cs =>
        match mapM (fun c => find_column c (columns df)) cs with
        | None => Raise (KeyError "columns")
        | Some cols => Ok (filter is_num cols)
        end
    end in
  match sel with
  | Raise e => Raise e
  | Ok ncols =>
    let n := n_rows df in
    let numeric := map (fun c => (col_name c, num_values c)) ncols in
    let cnt (vs : list (option Q)) := Z.of_nat (length (somes vs)) in
    (* report columns with count < len * 0.1 ... *)
    let dropped_num :=
      flat_map (fun '(name, vs) => if 10 * cnt vs <? Z.of_nat n
                                   then [(name, "Over 90% missing values"%string)] else []) numeric in
    (* ... but keep those with at least int(len * 0.1) values *)
    let kept := filter (fun '(_, vs) => Z.of_nat (n / 10) <=? cnt vs) numeric in
    let row_mask :=
      match kept with
      | [] => repeat true n
      | _ => map (fun i => existsb (fun '(_, vs) => match nth i vs None with Some _ => true | None => false end) kept)
                 (seq 0 n)
      end in
    let n' := length (filter (fun b => b) row_mask) in
    let imputed :=
      map (fun '(name, vs) =>
             let vs' := select_mask row_mask vs in
             let med := median_Q (somes vs') in
             (name, map (fun o => match o with Some q => Some q | None => med end) vs')) kept in
    let '(enc_info, dropped_cat, combined) :=
      match categorical_columns with
      | None | Some [] => ([], [], imputed)
      | Some cats =>
          let df' := {| n_rows := n';
                        columns := map (fun c => {| col_name := col_name c; col_dtype := col_dtype c;
                                                    col_cells := select_mask row_mask (col_cells c) |})
                                       (columns df) |} in
          let r := encode_categoricals pr df' cats 10 100 in
          (encoding_info r, skipped_columns r,
           match encoded_cols r, n' with
           | [], _ | _, O => imputed
           | enc, _ => imputed ++ map (fun '(nm, vs) => (nm, map Some vs)) enc
           end)
      end in
    let zero_var_cols := map fst (filter (fun '(_, vs) => zero_variance vs) combined) in
    let dropped := dropped_num ++ dropped_cat
                   ++ map (fun c => (c, "Zero variance"%string)) zero_var_cols in
    let final := filter (fun '(nm, _) => negb (existsb (String.eqb nm) zero_var_cols)) combined in
    let feature_names := map fst final in
    if (length feature_names <? 2)%nat then
      Raise (ValueError (preprocess_error_message (length feature_names) dropped))
    else if (n' =? 0)%nat then
      Raise LibraryError   (* StandardScaler: "Found array with 0 sample(s)" *)
    else
      Ok {| pp_numeric_df := final; feature_names := feature_names;
            pp_encoding_info := enc_info; dropped_columns := dropped |}
  end.

(** A numeric column from optional integers ([None] is NaN). *)
Definition num_column (name : string) (vals : list (option Z)) : column :=
  {| col_name := name; col_dtype := DNumber;
     col_cells := map (fun o => match o with Some z => CNum (inject_Z z) | None => CNull end) vals |}.

(** 25 rows: column "a" has two values (92% missing), column "b" is full. *)
Definition sparse_frame : frame :=
  {| n_rows := 25;
     columns := [num_column "a" ([Some 0; Some 10] ++ repeat None 23);
                 num_column "b" (map (fun i => Some (Z.of_nat i)) (seq 0 25))] |}.

(** Eleven fruits, each twice (22 rows): above the default cardinality
    threshold of 10, so the column is label-encoded. *)
Definition fruit_values : list string :=
  ["pear"; "plum"; "kiwi"; "lime"; "fig"; "apple"; "mango"; "melon"; "guava"; "grape"; "cherry"]%string.

Definition fruit_frame : frame :=
  {| n_rows := 22; columns := [str_column "fruit" (fruit_values ++ fruit_values)] |}.

(** Four rows; column "c" is missing exactly half of its values. *)
Definition half_missing_frame : frame :=
  {| n_rows := 4;
     columns := [{| col_name := "c"; col_dtype := DObject;
                    col_cells := [CStr "x"; CNull; CStr "y"; CNull] |}] |}.

(** Four rows; column "s" is missing three of its four values. *)
Definition sparse_cat_frame : frame :=
  {| n_rows := 4;
     columns := [{| col_name := "s"; col_dtype := DObject;
                    col_cells := [CStr "x"; CNull; CNull; CNull] |};
                 str_column "t" ["u"; "v"; "u"; "v"]%string] |}.

(** An object column of Python booleans with one missing value. *)
Definition flag_column (vals : list cell) : column :=
  {| col_name := "flag"; col_dtype := DObject; col_cells := vals |}.

(** ** Dataset loader helpers (dataset_loader.py) *)

(** A Python [str] as its list of code points. *)
Definition code_points (s : string) : list Z :=
  map (fun ch => Z.of_nat (Ascii.nat_of_ascii ch)) (list_ascii_of_string s).

(** The character class [[a-zA-Z0-9_\-]]. *)
Definition id_char (c : Z) : bool :=
  ((97 <=? c) && (c <=? 122)) || ((65 <=? c) && (c <=? 90)) || ((48 <=? c) && (c <=? 57))
  || (c =? 95) || (c =? 45).

(** [_sanitize_id]: [re.sub(r"[^a-zA-Z0-9_\-]", "_", dataset_id)]. *)
Definition sanitize_id (dataset_id : list Z) : list Z :=
  map (fun c => if id_char c then c else 95) dataset_id.

(** [bytes.strip()] removes ASCII whitespace [b" \t\n\r\x0b\x0c"]. *)
Definition is_space_byte (b : Z) : bool :=
  (b =? 32) || (b =? 9) || (b =? 10) || (b =? 13) || (b =? 11) || (b =? 12).

Fixpoint lstrip (l : list Z) : list Z :=
  match l with
  | b :: l' => if is_space_byte b then lstrip l' else l
  | [] => []
  end.

Definition strip (l : list Z) : list Z := rev (lstrip (rev (lstrip l))).

(** [bytes.lower()] lowers ASCII letters only. *)
Definition lower_byte (b : Z) : Z := if (65 <=? b) && (b <=? 90) then b + 32 else b.

Fixpoint startswith (p l : list Z) : bool :=
  match p, l with
  | [], _ => true
  | x :: p', y :: l' => (x =? y) && startswith p' l'
  | _ :: _, [] => false
  end.

Definition html_error : string :=
  "The URL returned an HTML page instead of a data file. This dataset may not have a direct download link.".

Definition xml_error : string :=
  "The URL returned XML data which is not a supported format. This dataset may require a different format.".

(** [_validate_content]: [Ok tt] when it returns normally. *)
Definition validate_content (content : list Z) : outcome unit :=
  let head := map lower_byte (strip (firstn 500 content)) in
  if startswith (code_points "<!doctype html") head || startswith (code_points "<html") head then
    Raise (ValueError html_error)
  else if startswith (code_points "<?xml") head then
    Raise (ValueError xml_error)
  else Ok tt.

(** [str.endswith] and [str.startswith] *)
Definition str_endswith (suffix s : string) : bool :=
  (String.length suffix <=? String.length s)%nat &&
  String.eqb (substring (String.length s - String.length suffix) (String.length suffix) s) suffix.

Definition str_startswith (p s : string) : bool := String.prefix p s.

Definition is_data_file (f : string) : bool :=
  (str_endswith ".csv" f || str_endswith ".json" f || str_endswith ".parquet" f || str_endswith ".xlsx" f)
  && negb (str_startswith "__MACOSX" f).

(** [max(extracted, key=size)]: the first element of greatest key. *)
Definition max_by (size : string -> Z) (x : string) (l : list string) : string :=
  fold_left (fun best f => if size best <? size f then f else best) l x.

(** [_extract_zip] on an archive whose member names are [names]; [size f]
    is the size of member [f] once extracted. The member returned is the
    data file whose path [cache_dir / f] the function returns. *)
Definition extract_zip (names : list string) (size : string -> Z) : outcome string :=
  match filter is_data_file names with
  | [] => Raise (ValueError "No supported data files found in zip archive")
  | f :: fs => Ok (max_by size f fs)
  end.

(** [ColumnInfo] of the preview; the [dtype] string is left out. *)
Record ColumnInfo := {
  ci_name : string;
  non_null_count : nat;
  null_count : nat;
  sample_values : list cell;
  ci_cardinality : option Z;
  ci_suggested_encoding : option enc_type;
  ci_is_id_like : bool
}.

Record DatasetPreview := {
  pv_num_rows : nat;
  pv_num_columns : nat;
  pv_columns : list ColumnInfo;
  numeric_columns : list string;
  pv_categorical_columns : list string;
  sample_rows : list (list (string * cell))
}.

Definition column_info (pr : Parsers) (c : column) : ColumnInfo :=
  let cls := classify_column pr c in
  {| ci_name := col_name c;
     non_null_count := length (non_null (col_cells c));
     null_count := length (filter is_null (col_cells c));
     sample_values := firstn 3 (non_null (col_cells c));
     ci_cardinality := cls_cardinality cls;
     ci_suggested_encoding := cls_suggested_encoding cls;
     ci_is_id_like := cls_is_id_like cls |}.

(** [suggested_encoding in ("one-hot", "label", "boolean", "numeric-coerce")] *)
Definition encodable (e : option enc_type) : bool :=
  match e with
  | Some EncOneHot | Some EncLabel | Some EncBoolean | Some EncNumericCoerce => true
  | _ => false
  end.

(** [fillna("")] *)
Definition fill_blank (x : cell) : cell := match x with CNull => CStr "" | _ => x end.

(** [build_preview]; a row of [sample_rows] is the dict of the row, which
    lists the columns in order (the names of a frame's columns being
    distinct). *)
Definition build_preview (pr : Parsers) (df : frame) : DatasetPreview :=
  {| pv_num_rows := n_rows df;
     pv_num_columns := length (columns df);
     pv_columns := map (column_info pr) (columns df);
     numeric_columns :=
       map col_name (filter (fun c => match col_dtype c with DNumber => true | _ => false end) (columns df));
     pv_categorical_columns :=
       map col_name (filter (fun c => encodable (cls_suggested_encoding (classify_column pr c))) (columns df));
     sample_rows :=
       map (fun i => map (fun c => (col_name c, fill_blank (nth i (col_cells c) CNull))) (columns df))
           (seq 0 (Nat.min 5 (n_rows df))) |}.

(** ** Comparing the encoder with the classifier *)

(** The encoding an action of the per-column loop leads to: a one-hot
    candidate is one-hot encoded unless the feature cap downgrades it. *)
Definition action_encoding (a : col_action) : option enc_type :=
  match a with
  | ASkip _ => None
  | AEncode _ info => Some (encoding_type info)
  | ACandidate _ _ => Some EncOneHot
  end.

(** The encoder's test that an object column holds dates: more than half
    of its non-null values parse with [pd.to_datetime]. *)
Definition object_looks_datetime (pr : Parsers) (c : column) : bool :=
  let nn := non_null (col_cells c) in
  (0 <? length nn)%nat &&
  (length nn <? 2 * length (filter (fun o => match o with Some _ => true | None => false end)
                                   (map (to_datetime pr) nn)))%nat.

(** A zip archive: a macOS resource copy, two files of equal largest
    size and a file of another type. *)
Definition zip_names : list string :=
  ["__MACOSX/big.csv"; "data.csv"; "notes.txt"; "table.json"; "other.csv"]%string.

Definition zip_size (f : string) : Z :=
  if String.eqb f "__MACOSX/big.csv" then 100
  else if String.eqb f "table.json" then 9 else if String.eqb f "other.csv" then 9 else 3.

(** ** [_cache_path] *)

(** The last component of the cache path, [f"{source}_{safe_id}"]; the
    directory is [Path(settings.cache_dir) / component]. *)
Definition cache_component (source dataset_id : list Z) : list Z :=
  source ++ [95] ++ sanitize_id dataset_id.



(* ================================================================== *)
(** * Properties *)

From Stdlib Require Import Lqa.

(** ** General lemmas *)

Lemma mapM_Forall2 {A B} (f : A -> option B) l ys :
  mapM f l = Some ys -> Forall2 (fun x y => f x = Some y) l ys.
Proof.
  revert ys; induction l as [|x l IH]; simpl; intros ys H.
  - inversion H; constructor.
  - destruct (f x) eqn:Ef; [|discriminate].
    destruct (mapM f l) eqn:Em; [|discriminate].
    inversion H; subst; constructor; auto.
Qed.

Lemma insert_Z_perm x l : Permutation (x :: l) (insert_Z x l).
Proof.
  induction l as [|y l IH]; simpl; auto.
  destruct (x <=? y); auto.
  eapply perm_trans; [apply perm_swap|]. constructor; exact IH.
Qed.

Lemma sort_Z_perm l : Permutation l (sort_Z l).
Proof.
  induction l as [|x l IH]; simpl; auto.
  eapply perm_trans; [constructor; exact IH|]. apply insert_Z_perm.
Qed.

Lemma insert_Z_hdrel a x l :
  HdRel Z.le a l -> a <= x -> HdRel Z.le a (insert_Z x l).
Proof.
  intros H Hax; destruct l as [|y l]; simpl.
  - constructor; exact Hax.
  - destruct (x <=? y); constructor; [exact Hax|]. inversion H; assumption.
Qed.

Lemma insert_Z_sorted x l : Sorted Z.le l -> Sorted Z.le (insert_Z x l).
Proof.
  induction 1 as [|y l Hs IH Hd]; simpl.
  - repeat constructor.
  - destruct (x <=? y) eqn:E.
    + apply Z.leb_le in E. constructor; [constructor; assumption|constructor; exact E].
    + apply Z.leb_gt in E. constructor; [exact IH|]. apply insert_Z_hdrel; [exact Hd|lia].
Qed.

Lemma sort_Z_sorted l : Sorted Z.le (sort_Z l).
Proof. induction l; simpl; [constructor|apply insert_Z_sorted; assumption]. Qed.

Lemma sorted_le_nodup_lt l : Sorted Z.le l -> NoDup l -> Sorted Z.lt l.
Proof.
  induction 1 as [|y l Hs IH Hd]; intros Hn; constructor.
  - apply IH. inversion Hn; assumption.
  - inversion Hn as [|? ? Hnin _]; subst.
    destruct l as [|z l]; constructor. inversion Hd; subst.
    assert (y <> z) by (intro; subst; apply Hnin; left; reflexivity). lia.
Qed.

Lemma set_Z_sorted_nodup l :
  NoDup (sort_Z (set_Z l)) /\ (forall x, In x (sort_Z (set_Z l)) <-> In x l).
Proof.
  split.
  - eapply Permutation_NoDup; [apply sort_Z_perm|]. apply NoDup_nodup.
  - intros x. split; intros H.
    + apply (nodup_In Z.eq_dec). eapply Permutation_in; [symmetry; apply sort_Z_perm|exact H].
    + eapply Permutation_in; [apply sort_Z_perm|]. apply nodup_In; exact H.
Qed.

Definition sum_Z (l : list Z) : Z := fold_right Z.add 0 l.

Lemma count_eq_cons v a l :
  count_eq v (a :: l) = (if Z.eqb v a then 1 else 0) + count_eq v l.
Proof. unfold count_eq; simpl. destruct (v =? a); simpl length; lia. Qed.

Lemma count_eq_bounds v l : 0 <= count_eq v l <= Z.of_nat (length l).
Proof.
  induction l as [|a l IH]; [unfold count_eq; simpl; lia|].
  rewrite count_eq_cons. simpl length. destruct (v =? a); lia.
Qed.

Lemma count_eq_pos v l : In v l -> 0 < count_eq v l.
Proof.
  induction l as [|a l IH]; simpl; [tauto|]. intros [->|H]; rewrite count_eq_cons.
  - rewrite Z.eqb_refl. pose proof (count_eq_bounds v l). lia.
  - specialize (IH H). destruct (v =? a); lia.
Qed.

Lemma sum_indicator_absent a u :
  ~ In a u -> sum_Z (map (fun c => if Z.eqb c a then 1 else 0) u) = 0.
Proof.
  induction u as [|b u IH]; simpl; intros H; [reflexivity|].
  destruct (b =? a) eqn:E; [apply Z.eqb_eq in E; subst; tauto|].
  rewrite IH; [reflexivity|tauto].
Qed.

Lemma sum_indicator_once a u :
  NoDup u -> In a u -> sum_Z (map (fun c => if Z.eqb c a then 1 else 0) u) = 1.
Proof.
  induction 1 as [|b u Hb Hn IH]; simpl; [tauto|]. intros [->|H].
  - rewrite Z.eqb_refl, sum_indicator_absent by assumption. reflexivity.
  - destruct (b =? a) eqn:E; [apply Z.eqb_eq in E; subst; tauto|]. rewrite IH by assumption. reflexivity.
Qed.

(** The sizes of a partition by label sum to the number of labels. *)
Lemma sum_count_eq u l :
  NoDup u -> (forall x, In x l -> In x u) ->
  sum_Z (map (fun c => count_eq c l) u) = Z.of_nat (length l).
Proof.
  intros Hn. induction l as [|a l IH]; intros Hin.
  - simpl. induction u as [|b u IHu]; [reflexivity|]. simpl. rewrite IHu.
    + reflexivity.
    + inversion Hn; assumption.
    + intros _ [].
  - assert (E : sum_Z (map (fun c => count_eq c (a :: l)) u)
              = sum_Z (map (fun c => if Z.eqb c a then 1 else 0) u)
                + sum_Z (map (fun c => count_eq c l) u)).
    { clear IH Hin Hn. induction u as [|b u IHu]; [reflexivity|].
      simpl. rewrite IHu, count_eq_cons. lia. }
    rewrite E, sum_indicator_once, IH; [simpl length; lia|..].
    + intros x Hx; apply Hin; right; exact Hx.
    + exact Hn.
    + apply Hin; left; reflexivity.
Qed.

(** ** Rounding *)



Lemma round_half_even_bounds (a b : Z) x :
  (inject_Z a <= x)%Q -> (x <= inject_Z b)%Q -> a <= round_half_even x <= b.
Proof.
  intros Ha Hb. unfold round_half_even.
  pose proof (Qfloor_le x) as H1. pose proof (Qlt_floor x) as H2.
  assert (Fa : a <= Qfloor x).
  { rewrite <- (Qfloor_Z a). apply Qfloor_resp_le; exact Ha. }
  assert (Fb : Qfloor x <= b).
  { rewrite <- (Qfloor_Z b). apply Qfloor_resp_le; exact Hb. }
  set (f := Qfloor x) in *.
  destruct (Z.eq_dec f b) as [Efb|Nfb].
  - assert (Hx : x == inject_Z f).
    { rewrite Efb in *. apply Qle_antisym; assumption. }
    destruct (Qcompare (x - inject_Z f) (1 # 2)) eqn:E.
    + apply Qeq_alt in E. lra.
    + lia.
    + apply Qgt_alt in E. lra.
  - destruct (Qcompare (x - inject_Z f) (1 # 2)); try destruct (Z.even f); lia.
Qed.

(** ** Cluster profiles *)

Lemma profile_one_fields ndf labels fn lm c p :
  profile_one ndf labels fn lm c = Some p ->
  cluster_id p = c /\ size p = count_eq c labels /\
  percentage p = py_round (inject_Z (size p) / inject_Z (Z.of_nat (length labels))
                           * inject_Z 100) 1.
Proof.
  unfold profile_one. destruct (mapM _ _); intros H; inversion H; subst; simpl; auto.
Qed.

Lemma profile_clusters_fields ndf labels fn info ps :
  profile_clusters ndf labels fn info = Some ps ->
  map cluster_id ps = sort_Z (set_Z labels) /\
  map size ps = map (fun c => count_eq c labels) (sort_Z (set_Z labels)) /\
  Forall (fun p => percentage p = py_round (inject_Z (size p)
              / inject_Z (Z.of_nat (length labels)) * inject_Z 100) 1) ps.
Proof.
  unfold profile_clusters. intros H. apply mapM_Forall2 in H.
  induction H as [|c p u ps Hp _ IH]; [repeat split; constructor|].
  destruct IH as (IH1 & IH2 & IH3).
  apply profile_one_fields in Hp as (E1 & E2 & E3).
  simpl. split; [congruence|split; [congruence|constructor; assumption]].
Qed.

Lemma profile_clusters_sizes ndf labels fn info ps :
  profile_clusters ndf labels fn info = Some ps ->
  Forall (fun p => size p = count_eq (cluster_id p) labels) ps.
Proof.
  unfold profile_clusters. intros H. apply mapM_Forall2 in H.
  induction H as [|c p u ps Hp _ IH]; constructor; [|exact IH].
  apply profile_one_fields in Hp as (-> & -> & _). reflexivity.
Qed.

Lemma py_round_percentage_bounds (s t : Z) :
  0 < s <= t ->
  (0 <= py_round (inject_Z s / inject_Z t * inject_Z 100) 1 <= 100)%Q.
Proof.
  intros Hst. destruct t as [|p|p]; [lia| |lia].
  assert (E : (inject_Z s / inject_Z (Z.pos p) * inject_Z 100 * inject_Z (10 ^ 1)
              == (s * 1000) # p)%Q).
  { unfold Qeq, Qmult, Qdiv, Qinv, inject_Z; simpl. lia. }
  assert (B : 0 <= round_half_even (inject_Z s / inject_Z (Z.pos p) * inject_Z 100
                                    * inject_Z (10 ^ 1)) <= 1000).
  { apply round_half_even_bounds; rewrite E; unfold Qle, inject_Z; simpl; nia. }
  unfold py_round.
  set (r := round_half_even _) in *.
  assert (E2 : (inject_Z r / inject_Z (10 ^ 1) == r # 10)%Q).
  { unfold Qeq, Qdiv, Qmult, Qinv, inject_Z; simpl. lia. }
  rewrite E2. unfold Qle; simpl; lia.
Qed.

(** ** Rounding of label-encoded centroids *)



(** ** Claims about [profile_clusters] *)

(** C2 (counterexample): with 2001 rows of which one forms its own cluster,
    that cluster's percentage [round(1/2001*100, 1)] is [0.0], so the
    percentage does not always lie in (0, 100]. *)
Lemma profile_percentage_zero_cex :
  exists ps p,
    profile_clusters [] (1 :: repeat 0 2000) [] [] = Some ps /\
    In p ps /\ cluster_id p = 1 /\ size p = 1 /\ (percentage p == 0)%Q.
Proof.
  eexists; eexists. split; [vm_compute; reflexivity|].
  split; [simpl; right; left; reflexivity|]. vm_compute. repeat split; reflexivity.
Qed.

(** C2 (amended): [profile_clusters] yields exactly one profile per
    distinct label; the sizes are positive and sum to the number of rows;
    each percentage is [round(size / total * 100, 1)] and lies in [0, 100]. *)
Theorem profile_clusters_partition ndf labels fn info ps :
  profile_clusters ndf labels fn info = Some ps ->
  NoDup (map cluster_id ps) /\
  (forall x, In x (map cluster_id ps) <-> In x labels) /\
  sum_Z (map size ps) = Z.of_nat (length labels) /\
  Forall (fun p =>
    0 < size p /\
    percentage p = py_round (inject_Z (size p) / inject_Z (Z.of_nat (length labels))
                             * inject_Z 100) 1 /\
    (0 <= percentage p <= 100)%Q) ps.
Proof.
  intros H. destruct (profile_clusters_fields _ _ _ _ _ H) as (Hid & Hsz & Hpct).
  destruct (set_Z_sorted_nodup labels) as (Hnd & Hin).
  rewrite Hid. split; [exact Hnd|]. split; [exact Hin|]. split.
  - rewrite Hsz. apply sum_count_eq; [exact Hnd|]. intros x Hx; apply Hin; exact Hx.
  - rewrite Forall_forall in *. intros p Hp.
    assert (Hc : In (cluster_id p) labels) by (apply Hin; rewrite <- Hid; apply in_map; exact Hp).
    assert (Es : size p = count_eq (cluster_id p) labels).
    { apply profile_clusters_sizes in H. rewrite Forall_forall in H. apply H; exact Hp. }
    pose proof (count_eq_pos _ _ Hc) as Hpos. pose proof (count_eq_bounds (cluster_id p) labels).
    split; [lia|]. split; [apply Hpct; exact Hp|].
    rewrite (Hpct p Hp). apply py_round_percentage_bounds. lia.
Qed.



(** C10: the profiles come in strictly ascending [cluster_id] order; when
    the labels contain the noise label -1 (and no smaller label, as with
    DBSCAN), the noise profile is the first one. *)
Theorem profile_clusters_ascending ndf labels fn info ps :
  profile_clusters ndf labels fn info = Some ps ->
  Sorted Z.lt (map cluster_id ps) /\
  (In (-1) labels -> Forall (fun l => -1 <= l) labels ->
   hd_error (map cluster_id ps) = Some (-1)).
Proof.
  intros H. destruct (profile_clusters_fields _ _ _ _ _ H) as (Hid & _ & _).
  destruct (set_Z_sorted_nodup labels) as (Hnd & Hin).
  rewrite Hid. split; [apply sorted_le_nodup_lt; [apply sort_Z_sorted|exact Hnd]|].
  intros Hm Hall. pose proof (Sorted_StronglySorted Z.le_trans (sort_Z_sorted (set_Z labels))) as Hs.
  apply Hin in Hm.
  destruct (sort_Z (set_Z labels)) as [|h t] eqn:E; [destruct Hm|].
  simpl. f_equal.
  assert (Hh : In h labels) by (apply Hin; left; reflexivity).
  rewrite Forall_forall in Hall. specialize (Hall h Hh).
  apply StronglySorted_inv in Hs as [_ Hs]. rewrite Forall_forall in Hs.
  destruct Hm as [->|Hm]; [reflexivity|]. specialize (Hs _ Hm). lia.
Qed.

(** ** Silhouette stage of [cluster] *)

Lemma select_mask_length {A} (m : list bool) (l : list A) :
  length m = length l -> length (select_mask m l) = length (filter (fun b => b) m).
Proof.
  revert l; induction m as [|b m IH]; intros [|x l] H; simpl in *; try lia.
  destruct b; simpl; rewrite IH; auto.
Qed.

Lemma select_mask_map_filter (f : Z -> bool) l : select_mask (map f l) l = filter f l.
Proof. induction l as [|x l IH]; simpl; [reflexivity|]. destruct (f x); rewrite IH; reflexivity. Qed.

Lemma filter_map_id (f : Z -> bool) l :
  length (filter (fun b => b) (map f l)) = length (filter f l).
Proof. induction l as [|x l IH]; simpl; [reflexivity|]. destruct (f x); simpl; rewrite IH; reflexivity. Qed.

Lemma NoDup_remove_Z y l : NoDup l -> NoDup (remove Z.eq_dec y l).
Proof.
  induction 1 as [|x l Hx Hn IH]; simpl; [constructor|].
  destruct (Z.eq_dec y x); [exact IH|]. constructor; [|exact IH].
  intros H; apply in_remove in H; tauto.
Qed.

(** The distinct non-noise labels, counted either way. *)
Lemma non_noise_distinct_length labels :
  length (set_Z (filter (fun l => negb (l =? -1)) labels))
  = length (remove Z.eq_dec (-1) (set_Z labels)).
Proof.
  assert (E : forall x, In x (set_Z (filter (fun l => negb (l =? -1)) labels))
                        <-> In x (remove Z.eq_dec (-1) (set_Z labels))).
  { intros x. unfold set_Z. rewrite nodup_In, filter_In. split.
    - intros [Hx Hn]. apply in_in_remove; [intros ->; discriminate|apply nodup_In; exact Hx].
    - intros H. apply in_remove in H as [Hx Hn]. apply nodup_In in Hx.
      split; [exact Hx|]. apply negb_true_iff, Z.eqb_neq; exact Hn. }
  apply Nat.le_antisymm; apply NoDup_incl_length;
    try (apply NoDup_remove_Z; apply NoDup_nodup); try apply NoDup_nodup;
    intros x Hx; apply E; exact Hx.
Qed.

(** C7: given the labels of a clustering run (one per row), [cluster]
    returns a result; its silhouette score is present exactly when at
    least 2 distinct non-noise labels exist and the non-noise rows
    outnumber them, and is [None] otherwise. *)
Theorem cluster_silhouette_presence {P} (B : Backend P) X algorithm n_clusters labels nc params :
  cluster_labels B X algorithm n_clusters = Ok (labels, nc, params) ->
  length labels = length X ->
  exists sil,
    cluster B X algorithm n_clusters = Ok (labels, nc, sil, params) /\
    (sil <> None <->
       2 <= Z.of_nat (length (remove Z.eq_dec (-1) (set_Z labels))) <
            Z.of_nat (length (filter (fun l => negb (l =? -1)) labels))).
Proof.
  intros Hl Hlen. unfold cluster. rewrite Hl. unfold cluster_silhouette.
  set (u := remove Z.eq_dec (-1) (set_Z labels)).
  set (f := fun l => negb (l =? -1)).
  rewrite filter_map_id.
  destruct (2 <=? Z.of_nat (length u)) eqn:E1.
  - apply Z.leb_le in E1.
    destruct (Z.of_nat (length (filter f labels)) >? Z.of_nat (length u)) eqn:E2.
    + apply Z.gtb_lt in E2.
      assert (Hs : silhouette_score B (select_mask (map f labels) X) (select_mask (map f labels) labels)
                   = Some (silhouette_value B (select_mask (map f labels) X)
                                           (select_mask (map f labels) labels))).
      { unfold silhouette_score.
        rewrite select_mask_map_filter, select_mask_length, filter_map_id by (rewrite length_map; lia).
        fold f. pose proof (non_noise_distinct_length labels) as Hd. fold f u in Hd. rewrite Hd.
        replace ((length (filter f labels) =? length (filter f labels))%nat) with true
          by (symmetry; apply Nat.eqb_refl).
        replace (2 <=? Z.of_nat (length u)) with true by (symmetry; apply Z.leb_le; lia).
        replace (Z.of_nat (length u) <=? Z.of_nat (length (filter f labels)) - 1) with true
          by (symmetry; apply Z.leb_le; lia).
        reflexivity. }
      rewrite Hs. simpl. eexists; split; [reflexivity|]. split; [intros _; lia|discriminate].
    + rewrite Z.gtb_ltb in E2. apply Z.ltb_ge in E2. eexists; split; [reflexivity|]. split; [tauto|lia].
  - apply Z.leb_gt in E1. eexists; split; [reflexivity|]. split; [tauto|lia].
Qed.

(** ** Auto-k search *)




(** ** The search of [find_optimal_k] against the spec's search *)

Section BestK.
Variable f : Z -> option Q.





End BestK.




(** ** Label encoding *)

Lemma insert_str_perm x l : Permutation (x :: l) (insert_str x l).
Proof.
  induction l as [|y l IH]; simpl; [reflexivity|].
  destruct (String.leb x y); [reflexivity|].
  rewrite perm_swap. constructor. exact IH.
Qed.

Lemma sort_str_perm l : Permutation l (sort_str l).
Proof.
  induction l as [|x l IH]; simpl; [constructor|].
  rewrite <- insert_str_perm. constructor. exact IH.
Qed.

Definition str_le (a b : string) : Prop := String.leb a b = true.

Lemma insert_str_sorted x l : Sorted str_le l -> Sorted str_le (insert_str x l).
Proof.
  induction 1 as [|y l Hs IH Hh]; simpl; [repeat constructor|].
  destruct (String.leb x y) eqn:E.
  - constructor; [constructor; assumption|constructor; exact E].
  - assert (Hyx : str_le y x).
    { destruct (String.leb_total x y) as [H|H]; [congruence|exact H]. }
    constructor; [exact IH|].
    destruct l as [|z l]; simpl; [constructor; exact Hyx|].
    inversion Hh; subst.
    destruct (String.leb x z); constructor; assumption.
Qed.

Lemma sort_str_sorted l : Sorted str_le (sort_str l).
Proof. induction l; simpl; [constructor|apply insert_str_sorted; assumption]. Qed.

Lemma unique_str_fold l acc :
  NoDup acc ->
  let r := fold_left (fun acc x => if existsb (String.eqb x) acc then acc else acc ++ [x]) l acc in
  NoDup r /\ (forall s, In s r <-> In s acc \/ In s l).
Proof.
  revert acc; induction l as [|x l IH]; intros acc Hnd; simpl.
  - split; [exact Hnd|]. intros s; tauto.
  - destruct (existsb (String.eqb x) acc) eqn:E.
    + destruct (IH acc Hnd) as [H1 H2]. split; [exact H1|].
      intros s. rewrite H2. apply existsb_exists in E as (y & Hy & Heq).
      apply String.eqb_eq in Heq; subst y. split; [tauto|].
      intros [H|[->|H]]; tauto.
    + assert (Hnd' : NoDup (acc ++ [x])).
      { apply NoDup_app; [exact Hnd|repeat constructor; simpl; tauto|].
        intros y Hy [->|[]]. assert (existsb (String.eqb y) acc = true) by
          (apply existsb_exists; exists y; split; [exact Hy|apply String.eqb_refl]).
        congruence. }
      destruct (IH _ Hnd') as [H1 H2]. split; [exact H1|].
      intros s. rewrite H2, in_app_iff. simpl. tauto.
Qed.

Lemma unique_str_spec l : NoDup (unique_str l) /\ (forall s, In s (unique_str l) <-> In s l).
Proof.
  destruct (unique_str_fold l [] (NoDup_nil _)) as [H1 H2].
  split; [exact H1|]. intros s. unfold unique_str. rewrite H2. simpl. tauto.
Qed.

Lemma le_classes_spec strs :
  NoDup (le_classes strs) /\ Sorted str_le (le_classes strs) /\
  (forall s, In s (le_classes strs) <-> In s strs).
Proof.
  destruct (unique_str_spec strs) as [H1 H2]. unfold le_classes.
  pose proof (sort_str_perm (unique_str strs)) as Hp.
  split; [apply (Permutation_NoDup Hp H1)|]. split; [apply sort_str_sorted|].
  intros s. rewrite <- H2. split; apply Permutation_in; [apply Permutation_sym|]; exact Hp.
Qed.

Lemma index_of_nth s l :
  In s l -> (index_of s l < length l)%nat /\ nth_error l (index_of s l) = Some s.
Proof.
  induction l as [|y l IH]; simpl; [intros []|].
  destruct (String.eqb s y) eqn:E.
  - apply String.eqb_eq in E; subst. intros _. split; [lia|reflexivity].
  - apply String.eqb_neq in E. intros [->|H]; [congruence|].
    destruct (IH H) as [H1 H2]. split; [lia|exact H2].
Qed.

Lemma index_of_inj l i s :
  NoDup l -> nth_error l i = Some s -> index_of s l = i.
Proof.
  revert i; induction l as [|y l IH]; intros i Hnd Hi; [destruct i; discriminate|].
  inversion Hnd as [|? ? Hy Hnd']; subst. simpl.
  destruct i as [|i]; simpl in Hi.
  - injection Hi as ->. rewrite String.eqb_refl. reflexivity.
  - destruct (String.eqb s y) eqn:E.
    + apply String.eqb_eq in E; subst. apply nth_error_In in Hi. contradiction.
    + f_equal. apply IH; assumption.
Qed.

(** ** Sorting of one-hot candidates *)

Lemma insert_cand_perm x l : Permutation (x :: l) (insert_cand x l).
Proof.
  induction l as [|y l IH]; simpl; [reflexivity|].
  destruct (cand_card y <=? cand_card x); [reflexivity|].
  rewrite perm_swap. constructor. exact IH.
Qed.

Lemma sort_candidates_perm l : Permutation l (sort_candidates l).
Proof.
  induction l as [|x l IH]; simpl; [constructor|].
  rewrite <- insert_cand_perm. constructor. exact IH.
Qed.

Definition card_ge (a b : candidate) : Prop := cand_card b <= cand_card a.

Lemma insert_cand_sorted x l : Sorted card_ge l -> Sorted card_ge (insert_cand x l).
Proof.
  unfold card_ge. induction 1 as [|y l Hs IH Hh]; simpl; [repeat constructor|].
  destruct (cand_card y <=? cand_card x) eqn:E.
  - apply Z.leb_le in E. constructor; [constructor; assumption|constructor; exact E].
  - apply Z.leb_gt in E. constructor; [exact IH|].
    destruct l as [|z l]; simpl; [constructor; lia|].
    inversion Hh; subst.
    destruct (cand_card z <=? cand_card x); constructor; lia.
Qed.

Lemma sort_candidates_sorted l : Sorted card_ge (sort_candidates l).
Proof. induction l; simpl; [constructor|apply insert_cand_sorted; assumption]. Qed.

(** Where the encoding information of [encode_categoricals] comes from. *)
Lemma enc_fold_origin pr n th valid st0 :
  let st := fold_left (enc_step pr n th) valid st0 in
  (forall i, In i (st_info st) -> In i (st_info st0) \/
     exists c part, In c valid /\ encode_column pr n th c = AEncode part i) /\
  (forall k, In k (st_cands st) -> In k (st_cands st0) \/
     exists c, In c valid /\ fst (fst k) = col_name c /\
               encode_column pr n th c = ACandidate (snd (fst k)) (snd k)).
Proof.
  revert st0; induction valid as [|c valid IH]; intros st0; simpl.
  - split; intros; left; assumption.
  - destruct (IH (enc_step pr n th st0 c)) as [H1 H2]. split.
    + intros i Hi. destruct (H1 i Hi) as [H|(c' & part & Hc & He)].
      * unfold enc_step in H. destruct (encode_column pr n th c) eqn:E; simpl in H; try (left; exact H).
        apply in_app_iff in H as [H|[<-|[]]]; [left; exact H|].
        right. exists c, part. split; [left; reflexivity|exact E].
      * right. exists c', part. split; [right; exact Hc|exact He].
    + intros k Hk. destruct (H2 k Hk) as [H|(c' & Hc & Hn & He)].
      * unfold enc_step in H. destruct (encode_column pr n th c) eqn:E; simpl in H; try (left; exact H).
        apply in_app_iff in H as [H|[<-|[]]]; [left; exact H|].
        right. exists c. split; [left; reflexivity|]. split; [reflexivity|exact E].
      * right. exists c'. split; [right; exact Hc|]. split; assumption.
Qed.

Lemma encode_column_encoded pr n th c part i :
  encode_column pr n th c = AEncode part i ->
  original_column i = col_name c /\
  (encoding_type i = EncLabel -> exists strs, (part, i) = label_encode (col_name c) (cardinality i) strs).
Proof.
  unfold encode_column.
  repeat match goal with |- context [if ?b then _ else _] => destruct b end;
    intros H; inversion H; subst; simpl; split; try reflexivity; try discriminate.
  intros _. eexists. reflexivity.
Qed.

Lemma one_hot_phase_origin cur mx cands r :
  In r (one_hot_phase cur mx cands) ->
  exists k, In k cands /\ original_column (snd r) = fst (fst k) /\
    (encoding_type (snd r) = EncLabel -> r = label_encode (fst (fst k)) (snd (fst k)) (snd k)).
Proof.
  revert cur; induction cands as [|[[col nu] strs] rest IH]; intros cur; simpl; [intros []|].
  destruct (cur + (nu - 1) >? mx); intros [<-|H].
  - exists (col, nu, strs). split; [left; reflexivity|]. split; reflexivity.
  - destruct (IH _ H) as (k & Hk & Hk'). exists k. split; [right; exact Hk|exact Hk'].
  - exists (col, nu, strs). split; [left; reflexivity|]. split; [reflexivity|discriminate].
  - destruct (IH _ H) as (k & Hk & Hk'). exists k. split; [right; exact Hk|exact Hk'].
Qed.

Lemma encode_categoricals_origin pr df sel th mx i :
  In i (encoding_info (encode_categoricals pr df sel th mx)) ->
  exists c, In c (columns df) /\ find_column (col_name c) (columns df) = Some c /\
    In (col_name c) sel /\ (Z.of_nat (n_rows df) <= 2 * count_non_null (col_cells c)) /\
    original_column i = col_name c /\
    (encoding_type i = EncLabel -> exists strs part, (part, i) = label_encode (col_name c) (cardinality i) strs).
Proof.
  unfold encode_categoricals.
  destruct sel as [|s0 sel0]; [intros []|].
  set (sel := s0 :: sel0). set (cat := filter _ sel).
  assert (Hcat : forall nm, In nm cat -> In nm sel) by (intros nm H; apply filter_In in H; tauto).
  clearbody cat. destruct cat as [|x xs]; [intros []|].
  cbv beta iota zeta delta [encoding_info].
  set (valid := filter _ _).
  set (st := fold_left _ valid _).
  assert (Hv : forall c, In c valid ->
     In c (columns df) /\ find_column (col_name c) (columns df) = Some c /\ In (col_name c) sel /\
     Z.of_nat (n_rows df) <= 2 * count_non_null (col_cells c)).
  { intros c Hc. unfold valid in Hc. apply filter_In in Hc as [Hc Hn].
    apply Z.leb_le in Hn. apply in_flat_map in Hc as (nm & Hnm & Hf).
    apply Hcat in Hnm.
    destruct (find_column nm (columns df)) as [c'|] eqn:Ef; [|destruct Hf].
    destruct Hf as [<-|[]].
    assert (Hname : nm = col_name c' /\ In c' (columns df)).
    { clear -Ef. induction (columns df) as [|y ys IHy]; simpl in Ef; [discriminate|].
      destruct (String.eqb nm (col_name y)) eqn:E.
      - injection Ef as <-. apply String.eqb_eq in E. split; [exact E|left; reflexivity].
      - destruct (IHy Ef) as [H1 H2]. split; [exact H1|right; exact H2]. }
    destruct Hname as [-> Hin]. repeat split; assumption. }
  destruct (enc_fold_origin pr (n_rows df) th valid
              {| st_parts := []; st_info := []; st_skipped := []; st_cands := [] |}) as [H1 H2].
  fold st in H1, H2.
  intros Hi. apply in_app_iff in Hi as [Hi|Hi].
  - destruct (H1 i Hi) as [[]|(c & part & Hc & He)].
    destruct (Hv c Hc) as (Ha & Hb & Hd & He'). exists c. repeat split; try assumption.
    + apply (encode_column_encoded _ _ _ _ _ _ He).
    + intros Hl. destruct (proj2 (encode_column_encoded _ _ _ _ _ _ He) Hl) as [strs Hs].
      exists strs, part. exact Hs.
  - apply in_map_iff in Hi as (r & <- & Hr).
    destruct (one_hot_phase_origin _ _ _ _ Hr) as (k & Hk & Ho & Hl).
    apply (Permutation_in _ (Permutation_sym (sort_candidates_perm _))) in Hk.
    destruct (H2 k Hk) as [[]|(c & Hc & Hn & He)].
    destruct (Hv c Hc) as (Ha & Hb & Hd & He'). exists c. repeat split; try assumption.
    + rewrite Ho. exact Hn.
    + intros HL. specialize (Hl HL). exists (snd k), (fst r).
      rewrite Hl, <- Hn. reflexivity.
Qed.
Lemma encode_column_label_strs pr n th c part i :
  encode_column pr n th c = AEncode part i -> encoding_type i = EncLabel ->
  (part, i) = label_encode (col_name c) (cardinality i)
                (map (fun x => match x with CNull => "MISSING"%string | _ => py_str pr x end) (col_cells c)).
Proof.
  unfold encode_column.
  repeat match goal with |- context [if ?b then _ else _] => destruct b end;
    intros H; inversion H; subst; simpl; try discriminate.
  intros _. reflexivity.
Qed.

Lemma encode_column_candidate_strs pr n th c nu strs :
  encode_column pr n th c = ACandidate nu strs ->
  strs = map (fun x => match x with CNull => "MISSING"%string | _ => py_str pr x end) (col_cells c).
Proof.
  unfold encode_column.
  repeat match goal with |- context [if ?b then _ else _] => destruct b end;
    intros H; inversion H; subst; reflexivity.
Qed.

Lemma enc_fold_parts_mono pr n th valid st0 p :
  In p (st_parts st0) -> In p (st_parts (fold_left (enc_step pr n th) valid st0)).
Proof.
  revert st0; induction valid as [|c valid IH]; intros st0 Hp; simpl; [exact Hp|].
  apply IH. unfold enc_step. destruct (encode_column pr n th c); simpl; try exact Hp.
  apply in_app_iff; left; exact Hp.
Qed.

Lemma enc_fold_info_part pr n th valid st0 i :
  In i (st_info (fold_left (enc_step pr n th) valid st0)) ->
  In i (st_info st0) \/
  exists c part, In c valid /\ encode_column pr n th c = AEncode part i /\
                 In part (st_parts (fold_left (enc_step pr n th) valid st0)).
Proof.
  revert st0; induction valid as [|c valid IH]; intros st0 Hi; simpl in *; [left; exact Hi|].
  destruct (IH _ Hi) as [H|(c' & part & Hc & He & Hp)].
  - unfold enc_step in H. destruct (encode_column pr n th c) as [r|part info|nu strs] eqn:E;
      simpl in H; try (left; exact H).
    apply in_app_iff in H as [H|[<-|[]]]; [left; exact H|].
    right. exists c, part. split; [left; reflexivity|]. split; [exact E|].
    apply enc_fold_parts_mono. unfold enc_step. rewrite E. simpl.
    apply in_app_iff; right; left; reflexivity.
  - right. exists c', part. split; [right; exact Hc|]. split; assumption.
Qed.

(** Every label-encoded entry of [encode_categoricals] comes from a
    selected column of the frame: its mapping is [LabelEncoder]'s classes
    of that column's strings, and the encoded column is in [encoded_df]. *)
Lemma encode_categoricals_label_origin pr df sel th mx info :
  let r := encode_categoricals pr df sel th mx in
  In info (encoding_info r) -> encoding_type info = EncLabel ->
  exists c, In c (columns df) /\ find_column (col_name c) (columns df) = Some c /\
    In (col_name c) sel /\ original_column info = col_name c /\
    let strs := map (fun x => match x with CNull => "MISSING"%string | _ => py_str pr x end) (col_cells c) in
    label_mapping info = Some (le_classes strs) /\
    In (col_name c, map (fun s => inject_Z (Z.of_nat (index_of s (le_classes strs)))) strs) (encoded_cols r).
Proof.
  cbv zeta. unfold encode_categoricals.
  destruct sel as [|s0 sel0]; [intros []|].
  set (sel := s0 :: sel0). set (cat := filter _ sel).
  assert (Hcat : forall nm, In nm cat -> In nm sel) by (intros nm H; apply filter_In in H; tauto).
  clearbody cat. destruct cat as [|x xs]; [intros []|].
  cbv beta iota zeta delta [encoding_info encoded_cols].
  set (valid := filter _ _).
  assert (Hv : forall c, In c valid ->
     In c (columns df) /\ find_column (col_name c) (columns df) = Some c /\ In (col_name c) sel).
  { intros c Hc. unfold valid in Hc. apply filter_In in Hc as [Hc _].
    apply in_flat_map in Hc as (nm & Hnm & Hf).
    apply Hcat in Hnm.
    destruct (find_column nm (columns df)) as [c'|] eqn:Ef; [|destruct Hf].
    destruct Hf as [<-|[]].
    assert (Hname : nm = col_name c' /\ In c' (columns df)).
    { clear -Ef. induction (columns df) as [|y ys IHy]; simpl in Ef; [discriminate|].
      destruct (String.eqb nm (col_name y)) eqn:E.
      - injection Ef as <-. apply String.eqb_eq in E. split; [exact E|left; reflexivity].
      - destruct (IHy Ef) as [H1 H2]. split; [exact H1|right; exact H2]. }
    destruct Hname as [-> Hin]. repeat split; assumption. }
  intros Hi Hl. apply in_app_iff in Hi as [Hi|Hi].
  - destruct (enc_fold_info_part pr (n_rows df) th valid _ info Hi) as [[]|(c & part & Hc & He & Hp)].
    destruct (Hv c Hc) as (Ha & Hb & Hd).
    pose proof (encode_column_label_strs _ _ _ _ _ _ He Hl) as Hpi.
    unfold label_encode in Hpi. injection Hpi as Hpart Hinfo.
    exists c. split; [exact Ha|]. split; [exact Hb|]. split; [exact Hd|].
    rewrite Hinfo. cbn [original_column label_mapping]. split; [reflexivity|]. split; [reflexivity|].
    apply in_concat. exists part. split; [apply in_app_iff; left; exact Hp|].
    rewrite Hpart. left. reflexivity.
  - apply in_map_iff in Hi as (r & <- & Hr).
    destruct (one_hot_phase_origin _ _ _ _ Hr) as (k & Hk & _ & Hlab).
    apply (Permutation_in _ (Permutation_sym (sort_candidates_perm _))) in Hk.
    destruct (proj2 (enc_fold_origin pr (n_rows df) th valid
                       {| st_parts := []; st_info := []; st_skipped := []; st_cands := [] |}) k Hk)
      as [[]|(c & Hc & Hn & He)].
    destruct (Hv c Hc) as (Ha & Hb & Hd).
    specialize (Hlab Hl). apply encode_column_candidate_strs in He.
    assert (Hfr : In (fst r) (map fst (one_hot_phase
                     (Z.of_nat (length (concat (st_parts (fold_left (enc_step pr (n_rows df) th) valid
                        {| st_parts := []; st_info := []; st_skipped := []; st_cands := [] |})))))
                     mx (sort_candidates (st_cands (fold_left (enc_step pr (n_rows df) th) valid
                        {| st_parts := []; st_info := []; st_skipped := []; st_cands := [] |})))))).
    { apply in_map, Hr. }
    destruct k as [[col nu] strs]. cbn [fst snd] in *. subst col strs.
    exists c. split; [exact Ha|]. split; [exact Hb|]. split; [exact Hd|].
    rewrite Hlab in Hfr |- *. cbn. split; [reflexivity|]. split; [reflexivity|].
    apply in_concat. eexists. split; [apply in_app_iff; right; exact Hfr|left; reflexivity].
Qed.

(** C4 (amended): whenever [encode_categoricals] label-encodes a column,
    its [label_mapping] is [Some classes] for the classes of sklearn's
    LabelEncoder of that column's strings (a missing value as "MISSING"):
    the distinct strings in sorted order, without repetition. The encoded
    column of [encoded_df] holds, for every row, the index of the row's
    string in [classes], and index [i] of [classes] recovers the category
    encoded as [i]. The first part states this for [label_encode], the
    block both label-encoding sites run; the second ties every
    label-encoded entry of [encode_categoricals] to a selected column of
    the frame and to its encoded column. *)
Theorem label_encoding_sorted_mapping :
  (forall col nuniq strs,
     let classes := le_classes strs in
     label_encode col nuniq strs =
       ([(col, map (fun s => inject_Z (Z.of_nat (index_of s classes))) strs)],
        {| original_column := col; encoding_type := EncLabel; new_columns := [col];
           cardinality := nuniq; label_mapping := Some classes |}) /\
     NoDup classes /\ Sorted str_le classes /\
     (forall s, In s classes <-> In s strs) /\
     (forall s, In s strs ->
        (index_of s classes < length classes)%nat /\ nth_error classes (index_of s classes) = Some s) /\
     (forall i s, nth_error classes i = Some s -> index_of s classes = i)) /\
  (forall pr df sel th mx info,
     let r := encode_categoricals pr df sel th mx in
     In info (encoding_info r) -> encoding_type info = EncLabel ->
     exists c, In c (columns df) /\ find_column (col_name c) (columns df) = Some c /\
       In (col_name c) sel /\ original_column info = col_name c /\
       let strs := map (fun x => match x with CNull => "MISSING"%string | _ => py_str pr x end)
                       (col_cells c) in
       label_mapping info = Some (le_classes strs) /\
       In (col_name c, map (fun s => inject_Z (Z.of_nat (index_of s (le_classes strs)))) strs)
          (encoded_cols r)).
Proof.
  split.
  - intros col nuniq strs classes.
    destruct (le_classes_spec strs) as (Hnd & Hs & Hin).
    split; [reflexivity|]. split; [exact Hnd|]. split; [exact Hs|]. split; [exact Hin|].
    split.
    + intros s H. apply index_of_nth, Hin, H.
    + intros i s H. apply index_of_inj; assumption.
  - intros pr df sel th mx info. apply encode_categoricals_label_origin.
Qed.

(** C4 (counterexample): the fruit column is label-encoded with the
    sorted mapping [apple, cherry, ...]; "pear", observed first, is
    encoded as 9 and not as 0. *)
Lemma label_mapping_not_first_observed_cex :
  let r := encode_categoricals plain_parsers fruit_frame ["fruit"%string] 10 100 in
  hd_error fruit_values = Some "pear"%string /\
  map label_mapping (encoding_info r) =
    [Some ["apple"; "cherry"; "fig"; "grape"; "guava"; "kiwi"; "lime"; "mango"; "melon"; "pear"; "plum"]%string] /\
  map (fun p => (fst p, hd 0%Q (snd p))) (encoded_cols r) = [("fruit"%string, 9%Q)].
Proof. vm_compute. repeat split; reflexivity. Qed.

(** ** The feature cap of the one-hot phase *)

Definition one_hot_choice (current max_total_features : Z) (c : candidate)
    : list (string * list Q) * EncodingInfo :=
  let '(col, nuniq, strs) := c in
  if current + (nuniq - 1) >? max_total_features then label_encode col nuniq strs
  else one_hot_encode col nuniq strs.

Lemma one_hot_phase_cons cur mx c rest :
  one_hot_phase cur mx (c :: rest) =
  one_hot_choice cur mx c
    :: one_hot_phase (cur + Z.of_nat (length (fst (one_hot_choice cur mx c)))) mx rest.
Proof.
  destruct c as [[col nu] strs]. simpl.
  destruct (cur + (nu - 1) >? mx); reflexivity.
Qed.

Lemma one_hot_phase_length cur mx cands : length (one_hot_phase cur mx cands) = length cands.
Proof.
  revert cur; induction cands as [|c rest IH]; intros cur; [reflexivity|].
  rewrite one_hot_phase_cons. simpl. f_equal. apply IH.
Qed.

Lemma one_hot_phase_entry cur mx cands pre r post :
  one_hot_phase cur mx cands = pre ++ r :: post ->
  exists cpre c cpost, cands = cpre ++ c :: cpost /\ length cpre = length pre /\
    r = one_hot_choice (cur + Z.of_nat (length (concat (map fst pre)))) mx c.
Proof.
  revert cur pre; induction cands as [|c rest IH]; intros cur pre H.
  - destruct pre; discriminate.
  - rewrite one_hot_phase_cons in H. destruct pre as [|p pre'].
    + injection H as Hr _. exists [], c, rest. split; [reflexivity|]. split; [reflexivity|].
      rewrite <- Hr. simpl. rewrite Z.add_0_r. reflexivity.
    + injection H as Hp H. destruct (IH _ _ H) as (cpre & c' & cpost & -> & Hl & Hr).
      exists (c :: cpre), c', cpost. split; [reflexivity|]. split; [simpl; lia|].
      rewrite Hr, Hp. simpl. rewrite length_app. f_equal. lia.
Qed.

Lemma one_hot_choice_spec cur mx c :
  let r := one_hot_choice cur mx c in
  original_column (snd r) = fst (fst c) /\ cardinality (snd r) = cand_card c /\
  ((cur + (cand_card c - 1) > mx /\ r = label_encode (fst (fst c)) (cand_card c) (snd c) /\
    encoding_type (snd r) = EncLabel /\ length (fst r) = 1%nat) \/
   (cur + (cand_card c - 1) <= mx /\ r = one_hot_encode (fst (fst c)) (cand_card c) (snd c) /\
    encoding_type (snd r) = EncOneHot)).
Proof.
  destruct c as [[col nu] strs]. unfold cand_card. simpl.
  destruct (cur + (nu - 1) >? mx) eqn:E; simpl.
  - apply Z.gtb_lt in E. split; [reflexivity|]. split; [reflexivity|]. left; repeat split; lia.
  - rewrite Z.gtb_ltb in E. apply Z.ltb_ge in E.
    split; [reflexivity|]. split; [reflexivity|]. right; repeat split; lia.
Qed.

Lemma one_hot_encode_width col nuniq strs :
  length (fst (one_hot_encode col nuniq strs)) = pred (length (le_classes strs)).
Proof. unfold one_hot_encode. simpl. rewrite length_map. destruct (le_classes strs); reflexivity. Qed.

(** C5: the one-hot candidates are sorted by descending cardinality (a
    stable permutation); every candidate yields exactly one entry, none is
    skipped; a candidate is downgraded to a single label-encoded column
    exactly when the running total of output columns plus its estimated
    [nuniq - 1] new columns exceeds [max_total_features], and is one-hot
    encoded otherwise. Two 60-category columns under a cap of 100 give
    one one-hot and one label encoding, 60 columns in all, as in the
    repository's dimension-cap test. *)
Theorem one_hot_cap_rule :
  (forall cands, Permutation cands (sort_candidates cands) /\ Sorted card_ge (sort_candidates cands)) /\
  (forall cur mx cands, length (one_hot_phase cur mx cands) = length cands) /\
  (forall cur mx cands pre r post,
     one_hot_phase cur mx cands = pre ++ r :: post ->
     exists cpre c cpost, cands = cpre ++ c :: cpost /\ length cpre = length pre /\
       original_column (snd r) = fst (fst c) /\ cardinality (snd r) = cand_card c /\
       ((cur + Z.of_nat (length (concat (map fst pre))) + (cand_card c - 1) > mx /\
         encoding_type (snd r) = EncLabel /\ length (fst r) = 1%nat /\
         r = label_encode (fst (fst c)) (cand_card c) (snd c)) \/
        (cur + Z.of_nat (length (concat (map fst pre))) + (cand_card c - 1) <= mx /\
         encoding_type (snd r) = EncOneHot /\
         r = one_hot_encode (fst (fst c)) (cand_card c) (snd c)))) /\
  (forall a b sa sb,
     length (le_classes sa) = 60%nat -> length (le_classes sb) = 60%nat ->
     let oh := one_hot_phase 0 100 (sort_candidates [(a, 60, sa); (b, 60, sb)]) in
     map (fun r => encoding_type (snd r)) oh = [EncOneHot; EncLabel] /\
     length (concat (map fst oh)) = 60%nat) /\
  (let r := encode_categoricals plain_parsers cap_frame ["cat_a"; "cat_b"]%string 100 100 in
   map (fun i => (original_column i, encoding_type i)) (encoding_info r)
     = [("cat_a"%string, EncOneHot); ("cat_b"%string, EncLabel)] /\
   length (encoded_cols r) = 60%nat).
Proof.
  split; [intros cands; split; [apply sort_candidates_perm|apply sort_candidates_sorted]|].
  split; [apply one_hot_phase_length|].
  split.
  - intros cur mx cands pre r post H.
    destruct (one_hot_phase_entry _ _ _ _ _ _ H) as (cpre & c & cpost & Hc & Hl & Hr).
    exists cpre, c, cpost. split; [exact Hc|]. split; [exact Hl|].
    pose proof (one_hot_choice_spec (cur + Z.of_nat (length (concat (map fst pre)))) mx c) as Hs.
    rewrite <- Hr in Hs. destruct Hs as (H1 & H2 & H3).
    split; [exact H1|]. split; [exact H2|].
    destruct H3 as [(A & B & C & D)|(A & B & C)]; [left|right]; tauto.
  - split.
    + intros a b sa sb Ha Hb.
      assert (Hw : length (fst (one_hot_encode a 60 sa)) = 59%nat)
        by (rewrite one_hot_encode_width, Ha; reflexivity).
      assert (Hs : sort_candidates [(a, 60, sa); (b, 60, sb)] = [(a, 60, sa); (b, 60, sb)])
        by reflexivity.
      cbv zeta. rewrite Hs, !one_hot_phase_cons.
      assert (H1 : one_hot_choice 0 100 (a, 60, sa) = one_hot_encode a 60 sa) by reflexivity.
      rewrite H1, Hw.
      assert (H2 : one_hot_choice (0 + Z.of_nat 59) 100 (b, 60, sb) = label_encode b 60 sb)
        by reflexivity.
      rewrite H2. split; [reflexivity|].
      cbn [map concat]. rewrite length_app, Hw. reflexivity.
    + vm_compute. split; reflexivity.
Qed.

(** ** Selection and missing values in the encoder *)

Lemma filter_idem {A} (f : A -> bool) l : filter f (filter f l) = filter f l.
Proof.
  induction l as [|x l IH]; simpl; [reflexivity|].
  destruct (f x) eqn:E; simpl; [rewrite E, IH|]; [reflexivity|exact IH].
Qed.

Lemma NoDup_map_inj {A B} (f : A -> B) l a b :
  NoDup (map f l) -> In a l -> In b l -> f a = f b -> a = b.
Proof.
  induction l as [|x l IH]; simpl; [intros _ []|].
  intros Hnd Ha Hb Hf. inversion Hnd as [|? ? Hx Hnd']; subst.
  destruct Ha as [<-|Ha], Hb as [<-|Hb]; try reflexivity.
  - exfalso. apply Hx. rewrite Hf. apply in_map, Hb.
  - exfalso. apply Hx. rewrite <- Hf. apply in_map, Ha.
  - apply IH; assumption.
Qed.

(** C8 (amended): [encode_categoricals] ignores the selected names that
    are not columns of the dataset (the result equals that of the
    selection restricted to existing columns), and a selected column with
    more than half of its values missing gets no encoding. *)
Theorem encode_categoricals_selection :
  forall pr df sel th mx,
  encode_categoricals pr df sel th mx
    = encode_categoricals pr df (filter (fun c => existsb (String.eqb c) (col_names df)) sel) th mx /\
  (NoDup (col_names df) ->
   forall col, In col (columns df) -> 2 * count_non_null (col_cells col) < Z.of_nat (n_rows df) ->
   ~ In (col_name col) (map original_column (encoding_info (encode_categoricals pr df sel th mx)))).
Proof.
  intros pr df sel th mx. split.
  - destruct sel as [|s0 sel0]; [reflexivity|].
    unfold encode_categoricals at 1 2. cbv beta iota zeta.
    rewrite filter_idem. destruct (filter _ _); reflexivity.
  - intros Hnd col Hcol Hmiss Hin. apply in_map_iff in Hin as (i & Hi & Hin).
    destruct (encode_categoricals_origin _ _ _ _ _ _ Hin) as (c & Hc & _ & _ & Hn & Ho & _).
    assert (c = col) as ->.
    { apply (NoDup_map_inj col_name (columns df)); try assumption. congruence. }
    lia.
Qed.

(** C8 (counterexample): a column missing exactly half of its values is
    not dropped; it is one-hot encoded and not reported as skipped. *)
Lemma half_missing_column_kept_cex :
  let r := encode_categoricals plain_parsers half_missing_frame ["c"%string] 10 100 in
  map (fun c => (2 * count_non_null (col_cells c), Z.of_nat (n_rows half_missing_frame)))
      (columns half_missing_frame) = [(4, 4)] /\
  map (fun i => (original_column i, encoding_type i)) (encoding_info r) = [("c"%string, EncOneHot)] /\
  skipped_columns r = [].
Proof. vm_compute. repeat split; reflexivity. Qed.

(** A column missing three quarters of its values is dropped without an
    entry in [skipped_columns]. *)
Lemma sparse_column_not_reported :
  let r := encode_categoricals plain_parsers sparse_cat_frame ["s"; "t"]%string 10 100 in
  map original_column (encoding_info r) = ["t"%string] /\ skipped_columns r = [].
Proof. vm_compute. split; reflexivity. Qed.

(** ** Boolean columns *)

(** C9 (amended): an object column whose non-null unique values are
    Python-equal to [True] or [False] is classified as boolean with
    cardinality 2. A column of boolean dtype, or such an object column,
    that has at least two distinct non-null values and is not ID-like is
    encoded as one column mapping [True] to 1, [False] to 0 and a missing
    value to 0. *)
Theorem boolean_columns :
  (forall pr c, col_dtype c = DObject -> all_bool_like (col_cells c) = true ->
     classify_column pr c =
       {| cls_cardinality := Some 2; cls_suggested_encoding := Some EncBoolean; cls_is_id_like := false |}) /\
  (forall pr n th c,
     (col_dtype c = DBool \/ (col_dtype c = DObject /\ all_bool_like (col_cells c) = true)) ->
     1 < nunique (col_cells c) ->
     ((0 < n)%nat -> (inject_Z (nunique (col_cells c)) / inject_Z (Z.of_nat n) <= 9 # 10)%Q) ->
     encode_column pr n th c =
       AEncode [(col_name c, map bool_code (col_cells c))]
         {| original_column := col_name c; encoding_type := EncBoolean; new_columns := [col_name c];
            cardinality := 2; label_mapping := None |}) /\
  (forall x, bool_like x = true -> bool_code x = if cell_eqb x (CBool true) then 1%Q else 0%Q) /\
  bool_code CNull = 0%Q.
Proof.
  split; [|split; [|split]].
  - intros pr c Hd Hb. unfold classify_column. rewrite Hd, Hb. reflexivity.
  - intros pr n th c Hd Hn Hr. unfold encode_column.
    replace (nunique (col_cells c) <=? 1) with false by (symmetry; apply Z.leb_gt; lia).
    replace ((0 <? n)%nat && Qlt_bool (9 # 10) (inject_Z (nunique (col_cells c)) / inject_Z (Z.of_nat n)))
      with false.
    + destruct Hd as [-> | [-> ->]]; reflexivity.
    + destruct n as [|n]; [reflexivity|]. change ((0 <? S n)%nat) with true. cbn [andb].
      unfold Qlt_bool.
      rewrite (proj2 (Qle_bool_iff _ _) (Hr ltac:(lia))). reflexivity.
  - intros [|q|s|b|d] Hb; unfold bool_like in Hb; simpl in *; try discriminate; try reflexivity.
  - reflexivity.
Qed.

(** C9 (counterexample): a boolean column holding only [True] (and one
    missing value) is classified as boolean, but the encoder skips it as
    a single-value column instead of encoding it. *)
Lemma constant_boolean_column_skipped_cex :
  let c := flag_column [CBool true; CBool true; CBool true; CNull] in
  let r := encode_categoricals plain_parsers {| n_rows := 4; columns := [c] |} ["flag"%string] 10 100 in
  classify_column plain_parsers c =
    {| cls_cardinality := Some 2; cls_suggested_encoding := Some EncBoolean; cls_is_id_like := false |} /\
  encoding_info r = [] /\ skipped_columns r = [("flag"%string, "Single value"%string)].
Proof. vm_compute. repeat split; reflexivity. Qed.

(** [is_numeric_dtype] holds for the boolean dtype, so a boolean-dtype
    column is classified as numeric, with no cardinality. *)
Lemma boolean_dtype_classified_numeric pr name vals :
  classify_column pr {| col_name := name; col_dtype := DBool; col_cells := vals |} =
    {| cls_cardinality := None; cls_suggested_encoding := None; cls_is_id_like := false |}.
Proof. reflexivity. Qed.

(** The strings "True" and "False" are not Python-equal to [True] and
    [False]: such a column is a one-hot categorical, not a boolean. *)
Lemma boolean_strings_not_boolean :
  let c := str_column "b" ["True"; "False"; "True"; "False"]%string in
  all_bool_like (col_cells c) = false /\
  classify_column plain_parsers c =
    {| cls_cardinality := Some 2; cls_suggested_encoding := Some EncOneHot; cls_is_id_like := false |}.
Proof. vm_compute. split; reflexivity. Qed.

(** ** The feature floor of [preprocess] *)

(** A successful [preprocess] returns at least two features. *)
Lemma preprocess_ok_features pr df cs cats r :
  preprocess pr df cs cats = Ok r -> (2 <= length (feature_names r))%nat.
Proof.
  unfold preprocess.
  destruct (match cs with None => _ | Some _ => _ end) as [ncols|e]; [|discriminate].
  cbv zeta.
  match goal with |- context [match ?x with (_, _) => _ end] => destruct x as [[ei dc] comb] end.
  destruct (length _ <? 2)%nat eqn:E; [discriminate|].
  destruct (_ =? 0)%nat; [discriminate|].
  intros H. injection H as <-. simpl. apply Nat.ltb_ge in E. exact E.
Qed.

(** C1 (code bug): column "a" of [sparse_frame] has 2 values in 25 rows
    (92% missing). [preprocess] reports it as dropped for "Over 90%
    missing values", yet keeps it ([dropna(thresh=int(2.5))] needs only 2
    values) and succeeds with features [a] and [b]; without "a" only one
    feature would remain. *)
Theorem preprocess_reported_column_kept :
  map (fun c => 10 * count_non_null (col_cells c)) (columns sparse_frame) = [20; 250] /\
  match preprocess plain_parsers sparse_frame None None with
  | Ok r => feature_names r = ["a"; "b"]%string /\
            dropped_columns r = [("a"%string, "Over 90% missing values"%string)]
  | Raise _ => False
  end.
Proof. vm_compute. repeat split; reflexivity. Qed.

(* ================================================================== *)
(** * Further properties of the loader and the engine *)

(** ** [_sanitize_id] *)

(** [_sanitize_id] keeps the length of the id, leaves only characters of
    [[a-zA-Z0-9_-]] (so never a slash, backslash or dot), keeps those
    characters in place, and is idempotent. *)
Theorem sanitize_id_safe (s : list Z) :
  length (sanitize_id s) = length s /\
  Forall (fun c => id_char c = true) (sanitize_id s) /\
  ~ In 47 (sanitize_id s) /\ ~ In 92 (sanitize_id s) /\ ~ In 46 (sanitize_id s) /\
  (Forall (fun c => id_char c = true) s -> sanitize_id s = s) /\
  sanitize_id (sanitize_id s) = sanitize_id s.
Proof.
  assert (Hall : Forall (fun c => id_char c = true) (sanitize_id s)).
  { unfold sanitize_id. apply Forall_map, Forall_forall. intros c _.
    destruct (id_char c) eqn:E; [exact E|reflexivity]. }
  assert (Hfix : forall t, Forall (fun c => id_char c = true) t -> sanitize_id t = t).
  { intros t Ht. unfold sanitize_id. induction Ht as [|c t Hc Ht IH]; [reflexivity|].
    simpl. rewrite Hc, IH. reflexivity. }
  assert (Hout : forall b, id_char b = false -> ~ In b (sanitize_id s)).
  { intros b Hb Hin. rewrite Forall_forall in Hall. specialize (Hall b Hin). congruence. }
  split; [apply length_map|]. split; [exact Hall|].
  split; [apply Hout; reflexivity|]. split; [apply Hout; reflexivity|].
  split; [apply Hout; reflexivity|]. split; [apply Hfix|apply Hfix, Hall].
Qed.

(** ** [_validate_content] *)

Lemma lstrip_spaces ws l : Forall (fun b => is_space_byte b = true) ws -> lstrip (ws ++ l) = lstrip l.
Proof. induction 1 as [|b ws Hb _ IH]; simpl; [reflexivity|]. rewrite Hb. exact IH. Qed.

Lemma lstrip_keep b l : is_space_byte b = false -> lstrip (b :: l) = b :: l.
Proof. simpl. intros ->. reflexivity. Qed.

Lemma lstrip_app l m :
  (exists t, lstrip l = t /\ t <> [] /\ lstrip (l ++ m) = t ++ m) \/
  (lstrip l = [] /\ lstrip (l ++ m) = lstrip m).
Proof.
  induction l as [|b l IH]; simpl; [right; split; reflexivity|].
  destruct (is_space_byte b); [exact IH|].
  left. exists (b :: l). split; [reflexivity|]. split; [discriminate|reflexivity].
Qed.

Lemma lstrip_nil_spaces l : lstrip l = [] -> Forall (fun b => is_space_byte b = true) l.
Proof.
  induction l as [|b l IH]; simpl; [constructor|].
  destruct (is_space_byte b) eqn:E; [intros H; constructor; [exact E|apply IH, H]|discriminate].
Qed.

(** What [strip] leaves of a text whose first and last bytes are not
    whitespace: the text itself, then part of what follows it. *)
Lemma strip_around ws s rest :
  Forall (fun b => is_space_byte b = true) ws -> s <> [] ->
  (forall b, hd_error s = Some b -> is_space_byte b = false) ->
  (forall b, hd_error (rev s) = Some b -> is_space_byte b = false) ->
  exists t, strip (ws ++ s ++ rest) = s ++ t.
Proof.
  intros Hws Hs Hh Hl. unfold strip. rewrite lstrip_spaces by exact Hws.
  destruct s as [|b s']; [congruence|].
  rewrite <- app_comm_cons, lstrip_keep by (apply Hh; reflexivity).
  rewrite app_comm_cons. rewrite rev_app_distr.
  assert (Hr : exists c r, rev (b :: s') = c :: r /\ is_space_byte c = false).
  { destruct (rev (b :: s')) as [|c r] eqn:Er.
    - apply (f_equal (@rev Z)) in Er. rewrite rev_involutive in Er. discriminate.
    - exists c, r. split; [reflexivity|]. apply Hl. first [rewrite Er; reflexivity|reflexivity]. }
  destruct Hr as (c & r & Er & Hc).
  destruct (lstrip_app (rev rest) (rev (b :: s'))) as [(t & _ & _ & ->)|(_ & ->)].
  - exists (rev t). rewrite rev_app_distr, rev_involutive. reflexivity.
  - rewrite Er, lstrip_keep by exact Hc. rewrite <- Er, rev_involutive.
    exists []. rewrite app_nil_r. reflexivity.
Qed.

Lemma startswith_app p t : startswith p (p ++ t) = true.
Proof. induction p as [|x p IH]; simpl; [reflexivity|]. rewrite Z.eqb_refl. exact IH. Qed.

Lemma lower_byte_lt b : lower_byte b = 60 <-> b = 60.
Proof.
  unfold lower_byte. destruct ((65 <=? b) && (b <=? 90)) eqn:E; [|tauto].
  apply andb_true_iff in E as [E1 E2]. apply Z.leb_le in E1. lia.
Qed.

Lemma lstrip_head l b r : lstrip l = b :: r -> is_space_byte b = false.
Proof.
  induction l as [|x l IH]; simpl; [discriminate|].
  destruct (is_space_byte x) eqn:Ex; [exact IH|intros H; injection H as -> _; exact Ex].
Qed.

Lemma strip_head l : hd_error (strip l) = hd_error (lstrip l).
Proof.
  unfold strip. destruct (lstrip l) as [|b r] eqn:E; [reflexivity|].
  simpl. destruct (lstrip_app (rev r) [b]) as [(t & _ & _ & ->)|(_ & ->)].
  - rewrite rev_app_distr. reflexivity.
  - simpl. rewrite (lstrip_head l b r E). reflexivity.
Qed.

Lemma startswith_lt_head p l : hd_error l <> Some 60 -> startswith (60 :: p) l = false.
Proof.
  destruct l as [|x l]; [reflexivity|]. intros H. cbn [startswith].
  destruct (60 =? x) eqn:E; [|reflexivity].
  apply Z.eqb_eq in E. subst. simpl in H. congruence.
Qed.

Lemma validate_prefix ws s rest :
  Forall (fun b => is_space_byte b = true) ws -> (length ws + length s <= 500)%nat -> s <> [] ->
  (forall b, hd_error s = Some b -> is_space_byte b = false) ->
  (forall b, hd_error (rev s) = Some b -> is_space_byte b = false) ->
  exists t, map lower_byte (strip (firstn 500 (ws ++ s ++ rest))) = map lower_byte s ++ t.
Proof.
  intros Hws Hlen Hs Hh Hl.
  assert (Hfirst : firstn 500 (ws ++ s ++ rest) = ws ++ s ++ firstn (500 - length ws - length s) rest).
  { rewrite !firstn_app, !firstn_all2 by lia. reflexivity. }
  rewrite Hfirst.
  destruct (strip_around ws s (firstn (500 - length ws - length s) rest) Hws Hs Hh Hl) as [t Ht].
  exists (map lower_byte t). rewrite Ht, map_app. reflexivity.
Qed.

Lemma lower_byte_l v : lower_byte v = 108 -> is_space_byte v = false.
Proof.
  unfold lower_byte. destruct ((65 <=? v) && (v <=? 90)); intros H.
  - assert (v = 76) as -> by lia. reflexivity.
  - subst. reflexivity.
Qed.

Lemma pattern_ends p s :
  map lower_byte s = p -> hd_error p = Some 60 -> hd_error (rev p) = Some 108 ->
  s <> [] /\ (forall b, hd_error s = Some b -> is_space_byte b = false) /\
  (forall b, hd_error (rev s) = Some b -> is_space_byte b = false).
Proof.
  intros Hs Hp Hr. subst p. split; [|split].
  - intros ->. discriminate.
  - intros b Hb. destruct s as [|x s]; [discriminate|]. simpl in Hb. injection Hb as <-.
    simpl in Hp. injection Hp as Hp. apply (proj1 (lower_byte_lt x)) in Hp. rewrite Hp. reflexivity.
  - intros b Hb. rewrite <- map_rev in Hr. destruct (rev s) as [|x r]; [discriminate|].
    simpl in Hb. injection Hb as <-. simpl in Hr. injection Hr as Hr. apply lower_byte_l, Hr.
Qed.

(** [_validate_content] never rejects content whose first byte, after
    the ASCII whitespace that starts its first 500 bytes, is not ['<']
    (a CSV, JSON or binary file, say). Content that starts, after such
    whitespace and in any letter case, with "<!doctype html" or "<html"
    is rejected as an HTML page, and with "<?xml" as XML, when that text
    lies within the first 500 bytes. *)
Theorem validate_content_spec :
  (forall content, hd_error (lstrip (firstn 500 content)) <> Some 60 -> validate_content content = Ok tt) /\
  (forall ws s rest,
     Forall (fun b => is_space_byte b = true) ws -> (length ws + length s <= 500)%nat ->
     (map lower_byte s = code_points "<!doctype html" \/ map lower_byte s = code_points "<html") ->
     validate_content (ws ++ s ++ rest) = Raise (ValueError html_error)) /\
  (forall ws s rest,
     Forall (fun b => is_space_byte b = true) ws -> (length ws + length s <= 500)%nat ->
     map lower_byte s = code_points "<?xml" ->
     validate_content (ws ++ s ++ rest) = Raise (ValueError xml_error)).
Proof.
  split; [|split].
  - intros content Hc. unfold validate_content.
    rewrite <- strip_head in Hc.
    assert (Hm : hd_error (map lower_byte (strip (firstn 500 content))) <> Some 60).
    { destruct (strip (firstn 500 content)) as [|b r]; simpl in *; [discriminate|].
      intros H. injection H as H. apply (proj1 (lower_byte_lt b)) in H. subst. simpl in Hc. congruence. }
    unfold code_points. simpl list_ascii_of_string. cbn [map].
    rewrite !startswith_lt_head by exact Hm. reflexivity.
  - intros ws s rest Hws Hlen Hs.
    assert (Hends : s <> [] /\ (forall b, hd_error s = Some b -> is_space_byte b = false) /\
                    (forall b, hd_error (rev s) = Some b -> is_space_byte b = false)).
    { destruct Hs as [Hs|Hs]; (eapply pattern_ends; [exact Hs|reflexivity|reflexivity]). }
    destruct Hends as (Hne & Hh & Hl).
    destruct (validate_prefix ws s rest Hws Hlen Hne Hh Hl) as [t Ht].
    unfold validate_content. rewrite Ht.
    destruct Hs as [Hs|Hs]; rewrite Hs; reflexivity.
  - intros ws s rest Hws Hlen Hs.
    destruct (pattern_ends _ s Hs eq_refl eq_refl) as (Hne & Hh & Hl).
    destruct (validate_prefix ws s rest Hws Hlen Hne Hh Hl) as [t Ht].
    unfold validate_content. rewrite Ht, Hs. reflexivity.
Qed.

(** ** [_extract_zip] *)

Lemma max_by_spec size x l :
  let m := max_by size x l in
  In m (x :: l) /\ Forall (fun g => size g <= size m) (x :: l) /\
  exists pre post, x :: l = pre ++ m :: post /\ Forall (fun g => size g < size m) pre.
Proof.
  revert x; induction l as [|y l IH]; intros x; simpl.
  - split; [left; reflexivity|]. split; [constructor; [lia|constructor]|].
    exists [], []. split; [reflexivity|constructor].
  - unfold max_by in IH |- *. simpl.
    destruct (size x <? size y) eqn:E.
    + apply Z.ltb_lt in E.
      destruct (IH y) as (Hin & Hall & pre & post & Hd & Hpre).
      set (m := fold_left _ l y) in *.
      pose proof (Forall_inv Hall) as Hy. cbv beta in Hy.
      split; [right; exact Hin|]. split; [constructor; [lia|exact Hall]|].
      exists (x :: pre), post. split; [rewrite Hd; reflexivity|]. constructor; [lia|exact Hpre].
    + apply Z.ltb_ge in E.
      destruct (IH x) as (Hin & Hall & pre & post & Hd & Hpre).
      set (m := fold_left _ l x) in *.
      pose proof (Forall_inv Hall) as Hx. cbv beta in Hx. pose proof (Forall_inv_tail Hall) as Hl.
      split; [destruct Hin as [<-|H]; [left; reflexivity|right; right; exact H]|].
      split; [constructor; [exact Hx|constructor; [lia|exact Hl]]|].
      destruct pre as [|p pre].
      * injection Hd as Hm Hpost. exists [], (y :: post).
        rewrite <- Hm. split; [rewrite Hpost; reflexivity|constructor].
      * injection Hd as Hp Hd. subst p.
        pose proof (Forall_inv Hpre) as Hxm. cbv beta in Hxm. pose proof (Forall_inv_tail Hpre) as Hpre'.
        exists (x :: y :: pre), post. split; [rewrite Hd; reflexivity|].
        constructor; [exact Hxm|constructor; [lia|exact Hpre']].
Qed.

(** [_extract_zip] fails exactly when no member is a supported data file
    ([.csv], [.json], [.parquet] or [.xlsx], outside [__MACOSX]);
    otherwise it returns such a member, one of greatest size, and the
    first of them in the archive's order. *)
Theorem extract_zip_largest names size :
  (extract_zip names size = Raise (ValueError "No supported data files found in zip archive")
     <-> Forall (fun f => is_data_file f = false) names) /\
  (forall f, extract_zip names size = Ok f ->
     In f names /\ is_data_file f = true /\
     (forall g, In g names -> is_data_file g = true -> size g <= size f) /\
     exists pre post, filter is_data_file names = pre ++ f :: post /\ Forall (fun g => size g < size f) pre).
Proof.
  unfold extract_zip. split.
  - destruct (filter is_data_file names) as [|x l] eqn:E.
    + split; [intros _|reflexivity]. apply Forall_forall. intros f Hf.
      destruct (is_data_file f) eqn:Ef; [|reflexivity].
      assert (In f (filter is_data_file names)) by (apply filter_In; tauto). rewrite E in H. destruct H.
    + split; [discriminate|]. intros Hall.
      assert (Hx : In x (filter is_data_file names)) by (rewrite E; left; reflexivity).
      apply filter_In in Hx as [Hx Hd]. rewrite Forall_forall in Hall. rewrite (Hall x Hx) in Hd. discriminate.
  - intros f. destruct (filter is_data_file names) as [|x l] eqn:E; [discriminate|].
    intros H. injection H as <-.
    destruct (max_by_spec size x l) as (Hin & Hall & pre & post & Hd & Hpre).
    rewrite <- E in Hin. apply filter_In in Hin as [Hin Hdf].
    split; [exact Hin|]. split; [exact Hdf|]. split.
    + intros g Hg Hgd. rewrite Forall_forall in Hall. apply Hall. rewrite <- E. apply filter_In. tauto.
    + exists pre, post. split; [exact Hd|exact Hpre].
Qed.

(** ** [build_preview] *)

Lemma non_null_null_count l : (length (non_null l) + length (filter is_null l))%nat = length l.
Proof.
  unfold non_null. induction l as [|x l IH]; simpl; [reflexivity|].
  destruct (is_null x); simpl; lia.
Qed.

Lemma in_names_filter (f : column -> bool) cols c :
  NoDup (map col_name cols) -> In c cols ->
  (In (col_name c) (map col_name (filter f cols)) <-> f c = true).
Proof.
  intros Hnd Hc. split.
  - intros H. apply in_map_iff in H as (c' & Hn & Hc'). apply filter_In in Hc' as [Hc' Hf].
    rewrite <- (NoDup_map_inj col_name cols c' c Hnd Hc' Hc Hn). exact Hf.
  - intros Hf. apply in_map, filter_In. tauto.
Qed.

(** The preview of a frame whose columns hold one cell per row: every
    column's non-null and null counts add up to the row count, its sample
    values are at most three non-null cells, and the sample rows are the
    first [min 5 n] rows, listing every column in order, with missing
    cells shown as empty strings. *)
Theorem build_preview_counts pr df :
  Forall (fun c => length (col_cells c) = n_rows df) (columns df) ->
  let pv := build_preview pr df in
  pv_num_columns pv = length (pv_columns pv) /\
  Forall (fun ci => (non_null_count ci + null_count ci)%nat = pv_num_rows pv /\
                    (length (sample_values ci) <= 3)%nat /\ ~ In CNull (sample_values ci))
         (pv_columns pv) /\
  length (sample_rows pv) = Nat.min 5 (n_rows df) /\
  Forall (fun row => map fst row = col_names df /\ ~ In CNull (map snd row)) (sample_rows pv).
Proof.
  intros Hw pv. split; [simpl; rewrite length_map; reflexivity|]. split; [|split].
  - unfold pv, build_preview. cbn [pv_columns pv_num_rows]. apply Forall_map.
    eapply Forall_impl; [|exact Hw]. intros c Hc. cbv beta in Hc. unfold column_info.
    cbn [non_null_count null_count sample_values].
    split; [rewrite non_null_null_count; exact Hc|]. split; [apply firstn_le_length|].
    intros H.
    assert (Hin : In CNull (non_null (col_cells c)))
      by (rewrite <- (firstn_skipn 3 (non_null (col_cells c))); apply in_or_app; left; exact H).
    apply filter_In in Hin as [_ Hin]. discriminate.
  - simpl. rewrite length_map, length_seq. reflexivity.
  - simpl. apply Forall_map, Forall_forall. intros i _. split.
    + rewrite map_map. reflexivity.
    + rewrite map_map. intros H. apply in_map_iff in H as (c & Hc & _).
      destruct (nth i (col_cells c) CNull); discriminate.
Qed.

Lemma classify_encoding_dtype pr c :
  cls_suggested_encoding (classify_column pr c) <> None -> col_dtype c = DObject.
Proof.
  unfold classify_column.
  destruct (col_dtype c) eqn:E; simpl; intros H; try reflexivity; exfalso; apply H; reflexivity.
Qed.

(** In the preview of a frame with distinct column names, a column is
    listed as numeric exactly when its dtype is numeric, and as
    categorical exactly when it has object dtype and a suggested
    encoding; a categorical column is never ID-like. In particular a
    column of boolean dtype is in neither list. *)
Theorem build_preview_lists pr df :
  NoDup (col_names df) ->
  forall c, In c (columns df) ->
  let pv := build_preview pr df in
  (In (col_name c) (numeric_columns pv) <-> col_dtype c = DNumber) /\
  (In (col_name c) (pv_categorical_columns pv) <->
     col_dtype c = DObject /\ cls_suggested_encoding (classify_column pr c) <> None) /\
  (In (col_name c) (pv_categorical_columns pv) -> cls_is_id_like (classify_column pr c) = false) /\
  (col_dtype c = DBool -> ~ In (col_name c) (numeric_columns pv) /\ ~ In (col_name c) (pv_categorical_columns pv)).
Proof.
  intros Hnd c Hc pv.
  assert (Hnum : In (col_name c) (numeric_columns pv) <-> col_dtype c = DNumber).
  { unfold pv, build_preview. cbn [numeric_columns]. rewrite in_names_filter by assumption.
    destruct (col_dtype c); split; congruence. }
  assert (Hcat : In (col_name c) (pv_categorical_columns pv) <->
                 col_dtype c = DObject /\ cls_suggested_encoding (classify_column pr c) <> None).
  { unfold pv, build_preview. cbn [pv_categorical_columns]. rewrite in_names_filter by assumption.
    split.
    - intros H. assert (Hs : cls_suggested_encoding (classify_column pr c) <> None)
        by (intros E; rewrite E in H; discriminate).
      split; [apply (classify_encoding_dtype pr), Hs|exact Hs].
    - intros [_ H]. unfold classify_column in *.
      repeat match goal with |- context [if ?b then _ else _] => destruct b end;
        simpl in *; try reflexivity; exfalso; apply H; reflexivity. }
  split; [exact Hnum|]. split; [exact Hcat|]. split.
  - intros H. apply Hcat in H as [_ H]. revert H. unfold classify_column.
    repeat match goal with |- context [if ?b then _ else _] => destruct b end;
      simpl; intros H; try reflexivity; exfalso; apply H; reflexivity.
  - intros Hb. rewrite Hnum, Hcat, Hb. split; [discriminate|intros [H _]; discriminate].
Qed.

(** ** [_classify_column] *)

(** [_classify_column] suggests an encoding only for a column it does
    not find ID-like; it never suggests a datetime encoding; a one-hot
    suggestion has cardinality 2 to 10, a label suggestion cardinality
    above 10, a numeric-coerce suggestion at least 2, and a boolean one
    cardinality 2. *)
Theorem classify_column_consistent pr c :
  let cls := classify_column pr c in
  (cls_is_id_like cls = true -> cls_suggested_encoding cls = None /\
     exists k, cls_cardinality cls = Some k /\ 2 <= k) /\
  cls_suggested_encoding cls <> Some EncDatetime /\
  (cls_suggested_encoding cls = Some EncOneHot -> exists k, cls_cardinality cls = Some k /\ 2 <= k <= 10) /\
  (cls_suggested_encoding cls = Some EncLabel -> exists k, cls_cardinality cls = Some k /\ 10 < k) /\
  (cls_suggested_encoding cls = Some EncNumericCoerce -> exists k, cls_cardinality cls = Some k /\ 2 <= k) /\
  (cls_suggested_encoding cls = Some EncBoolean -> cls_cardinality cls = Some 2).
Proof.
  unfold classify_column.
  repeat match goal with |- context [if ?b then _ else _] => destruct b eqn:? end;
    simpl; repeat split; intros; try discriminate;
    repeat match goal with H : (_ <=? _) = _ |- _ => first [apply Z.leb_le in H | apply Z.leb_gt in H] end;
    eexists; split; try reflexivity; lia.
Qed.

(** ** [encode_categoricals]: where each selected column goes *)

Lemma find_column_name nm cols c :
  find_column nm cols = Some c -> col_name c = nm /\ In c cols.
Proof.
  induction cols as [|y ys IH]; simpl; [discriminate|].
  destruct (String.eqb nm (col_name y)) eqn:E.
  - intros H. injection H as <-. apply String.eqb_eq in E. split; [symmetry; exact E|left; reflexivity].
  - intros H. destruct (IH H) as [H1 H2]. split; [exact H1|right; exact H2].
Qed.

Lemma filter_filter_impl {A} (f g : A -> bool) l :
  (forall x, f x = true -> g x = true) -> filter f (filter g l) = filter f l.
Proof.
  intros Hfg. induction l as [|x l IH]; simpl; [reflexivity|].
  destruct (g x) eqn:Eg; simpl.
  - destruct (f x); [f_equal|]; exact IH.
  - destruct (f x) eqn:Ef; [rewrite (Hfg x Ef) in Eg; discriminate|exact IH].
Qed.

Lemma valid_names (g : column -> bool) cols L :
  map col_name (filter g (flat_map (fun nm => match find_column nm cols with
                                               | Some col => [col] | None => [] end) L))
  = filter (fun nm => match find_column nm cols with Some c => g c | None => false end) L.
Proof.
  induction L as [|nm L IH]; [reflexivity|].
  simpl. destruct (find_column nm cols) as [c|] eqn:E; simpl; [|exact IH].
  destruct (g c); simpl; [|exact IH].
  f_equal; [apply (find_column_name _ _ _ E)|exact IH].
Qed.

Lemma datetime_parts_shape col dts :
  Forall (fun p => length (snd p) = length dts) (datetime_parts col dts).
Proof.
  unfold datetime_parts. apply Forall_app; split.
  - repeat constructor; simpl; apply length_map.
  - destruct (0 <? _); repeat constructor; simpl; apply length_map.
Qed.

Lemma encode_column_shape pr n th c :
  (forall part info, encode_column pr n th c = AEncode part info ->
     map fst part = new_columns info /\
     Forall (fun p => length (snd p) = length (col_cells c)) part) /\
  (forall nu strs, encode_column pr n th c = ACandidate nu strs -> length strs = length (col_cells c)).
Proof.
  split; [intros part info|intros nu strs]; unfold encode_column;
  repeat match goal with |- context [if ?b then _ else _] => destruct b end;
  intros H; inversion H; subst; clear H.
  all: try (split; [reflexivity|]).
  all: try (repeat constructor; simpl; rewrite ?length_map; reflexivity).
  all: try (rewrite length_map; reflexivity).
  - rewrite <- (length_map (to_datetime pr)). apply datetime_parts_shape.
  - repeat constructor. simpl. unfold le_transform. rewrite !length_map. reflexivity.
Qed.

Lemma enc_fold_names pr n th valid st0 :
  let st := fold_left (enc_step pr n th) valid st0 in
  Permutation (map original_column (st_info st) ++ map fst (st_skipped st)
                 ++ map (fun k => fst (fst k)) (st_cands st))
              (map original_column (st_info st0) ++ map fst (st_skipped st0)
                 ++ map (fun k => fst (fst k)) (st_cands st0) ++ map col_name valid).
Proof.
  revert st0; induction valid as [|c valid IH]; intros st0; cbv zeta; simpl.
  - rewrite app_nil_r. reflexivity.
  - eapply perm_trans; [apply IH|].
    unfold enc_step. destruct (encode_column pr n th c) as [reason|part info|nu strs] eqn:E;
      simpl; rewrite !map_app; simpl.
    all: try rewrite (proj1 (encode_column_encoded _ _ _ _ _ _ E)).
    all: rewrite <- !app_assoc; simpl; repeat apply Permutation_app_head;
         first [reflexivity|rewrite ?app_assoc; apply Permutation_middle].
Qed.

Lemma enc_fold_shape pr n th valid st0 :
  let st := fold_left (enc_step pr n th) valid st0 in
  (map (map fst) (st_parts st0) = map new_columns (st_info st0) ->
   map (map fst) (st_parts st) = map new_columns (st_info st)) /\
  (Forall (fun c => length (col_cells c) = n) valid ->
   Forall (Forall (fun p => length (snd p) = n)) (st_parts st0) ->
   Forall (fun k => length (snd k) = n) (st_cands st0) ->
   Forall (Forall (fun p => length (snd p) = n)) (st_parts st) /\
   Forall (fun k => length (snd k) = n) (st_cands st)).
Proof.
  revert st0; induction valid as [|c valid IH]; intros st0; cbv zeta; simpl.
  - split; [tauto|]. intros _ H1 H2. split; assumption.
  - destruct (IH (enc_step pr n th st0 c)) as [IH1 IH2]. split.
    + intros H. apply IH1. unfold enc_step.
      destruct (encode_column pr n th c) as [reason|part info|nu strs] eqn:E; simpl; try exact H.
      rewrite !map_app, H. simpl. f_equal. f_equal.
      apply (proj1 (proj1 (encode_column_shape _ _ _ _) _ _ E)).
    + intros Hv Hp Hk. apply Forall_inv in Hv as Hc. apply Forall_inv_tail in Hv.
      apply IH2; [exact Hv| |]; unfold enc_step;
      destruct (encode_column pr n th c) as [reason|part info|nu strs] eqn:E; simpl;
      try assumption; apply Forall_app; split; try assumption; constructor; try constructor.
      * rewrite <- Hc. apply (proj2 (proj1 (encode_column_shape _ _ _ _) _ _ E)).
      * simpl. rewrite <- Hc. apply (proj2 (encode_column_shape _ _ _ _) _ _ E).
Qed.

Lemma one_hot_phase_shape m cur mx cands :
  let oh := one_hot_phase cur mx cands in
  map (fun r => original_column (snd r)) oh = map (fun k => fst (fst k)) cands /\
  map (fun r => map fst (fst r)) oh = map (fun r => new_columns (snd r)) oh /\
  (Forall (fun k => length (snd k) = m) cands ->
   Forall (fun r => Forall (fun p => length (snd p) = m) (fst r)) oh).
Proof.
  revert cur; induction cands as [|c rest IH]; intros cur; cbv zeta.
  - simpl. split; [reflexivity|]. split; [reflexivity|constructor].
  - rewrite one_hot_phase_cons. destruct (IH (cur + Z.of_nat (length (fst (one_hot_choice cur mx c)))))
      as (IH1 & IH2 & IH3).
    destruct c as [[col nu] strs]. cbn [map fst snd].
    assert (Hc : original_column (snd (one_hot_choice cur mx (col, nu, strs))) = col /\
                 map fst (fst (one_hot_choice cur mx (col, nu, strs)))
                   = new_columns (snd (one_hot_choice cur mx (col, nu, strs))) /\
                 (length strs = m -> Forall (fun p => length (snd p) = m)
                                       (fst (one_hot_choice cur mx (col, nu, strs))))).
    { unfold one_hot_choice. destruct (cur + (nu - 1) >? mx); simpl.
      - split; [reflexivity|]. split; [reflexivity|]. intros Hl.
        repeat constructor. simpl. unfold le_transform. rewrite length_map. exact Hl.
      - split; [reflexivity|]. split; [reflexivity|]. intros Hl.
        apply Forall_forall. intros p Hp. apply in_map_iff in Hp as (v & <- & _).
        simpl. rewrite length_map. exact Hl. }
    destruct Hc as (Hc1 & Hc2 & Hc3).
    split; [rewrite Hc1, IH1; reflexivity|]. split; [rewrite Hc2, IH2; reflexivity|].
    intros Hf. constructor; [apply Hc3, (Forall_inv Hf)|apply IH3, (Forall_inv_tail Hf)].
Qed.

(** For a selection without repeated names on a frame whose column
    names are distinct (otherwise the source raises [ValueError]),
    [encode_categoricals] accounts for every selected column that exists
    and has at least half of its values: each is either encoded (one entry
    of [encoding_info]) or reported in [skipped_columns], exactly once, and
    no other column appears in either list. *)
Theorem encode_categoricals_accounts pr df sel th mx :
  NoDup sel -> NoDup (col_names df) ->
  let r := encode_categoricals pr df sel th mx in
  Permutation (map original_column (encoding_info r) ++ map fst (skipped_columns r))
    (filter (fun nm => match find_column nm (columns df) with
                       | Some c => Z.of_nat (n_rows df) <=? 2 * count_non_null (col_cells c)
                       | None => false end) sel).
Proof.
  intros _ _.
  cbv zeta. unfold encode_categoricals.
  destruct sel as [|s0 sel0]; [reflexivity|].
  set (sel := s0 :: sel0).
  set (F := fun nm => match find_column nm (columns df) with
                      | Some c => Z.of_nat (n_rows df) <=? 2 * count_non_null (col_cells c)
                      | None => false end).
  set (cat := filter _ sel).
  assert (Hcat : filter F sel = filter F cat).
  { unfold cat. symmetry. apply filter_filter_impl. intros nm Hnm. unfold F in Hnm.
    destruct (find_column nm (columns df)) as [c|] eqn:E; [|discriminate].
    apply find_column_name in E as [E1 E2]. apply existsb_exists. exists nm.
    split; [unfold col_names; rewrite <- E1; apply in_map, E2|apply String.eqb_refl]. }
  rewrite Hcat. clear Hcat. clearbody cat. destruct cat as [|x xs]; [reflexivity|].
  cbv beta iota zeta delta [encoding_info skipped_columns].
  pose proof (valid_names (fun col => Z.of_nat (n_rows df) <=? 2 * count_non_null (col_cells col))
                (columns df) (x :: xs)) as Hv.
  cbv beta in Hv. fold F in Hv.
  set (valid := filter _ (flat_map _ _)) in *.
  pose proof (enc_fold_names pr (n_rows df) th valid
                {| st_parts := []; st_info := []; st_skipped := []; st_cands := [] |}) as Hf.
  cbv zeta in Hf. set (st := fold_left _ valid _) in *.
  simpl in Hf. rewrite Hv in Hf.
  set (oh := one_hot_phase _ _ _).
  destruct (one_hot_phase_shape O (Z.of_nat (length (concat (st_parts st)))) mx
              (sort_candidates (st_cands st))) as [Hn _].
  fold oh in Hn.
  rewrite map_app, map_map, Hn.
  eapply perm_trans; [|exact Hf].
  rewrite <- app_assoc. apply Permutation_app_head.
  eapply perm_trans; [apply Permutation_app_comm|].
  apply Permutation_app_head. apply Permutation_map, Permutation_sym, sort_candidates_perm.
Qed.

(** The columns of [encoded_df] are the [new_columns] of the encoding
    entries, in order; and when every column has one cell per row, every
    encoded column has one value per row. *)
Theorem encode_categoricals_shape pr df sel th mx :
  let r := encode_categoricals pr df sel th mx in
  map fst (encoded_cols r) = concat (map new_columns (encoding_info r)) /\
  (Forall (fun c => length (col_cells c) = n_rows df) (columns df) ->
   Forall (fun p => length (snd p) = n_rows df) (encoded_cols r)).
Proof.
  cbv zeta. unfold encode_categoricals.
  destruct sel as [|s0 sel0]; [split; [reflexivity|constructor]|].
  set (cat := filter _ _). clearbody cat. destruct cat as [|x xs]; [split; [reflexivity|constructor]|].
  cbv beta iota zeta delta [encoding_info encoded_cols].
  set (cat_df := flat_map _ _).
  assert (Hcd : forall c, In c cat_df -> In c (columns df)).
  { intros c Hc. apply in_flat_map in Hc as (nm & _ & Hf).
    destruct (find_column nm (columns df)) as [c'|] eqn:E; [|destruct Hf].
    destruct Hf as [<-|[]]. apply (find_column_name _ _ _ E). }
  clearbody cat_df.
  set (valid := filter _ cat_df).
  assert (Hvd : forall c, In c valid -> In c (columns df)).
  { intros c Hc. apply filter_In in Hc. apply Hcd, Hc. }
  clearbody valid.
  destruct (enc_fold_shape pr (n_rows df) th valid
              {| st_parts := []; st_info := []; st_skipped := []; st_cands := [] |}) as [H1 H2].
  cbv zeta in H1, H2. set (st := fold_left _ valid _) in *.
  set (oh := one_hot_phase _ _ _).
  destruct (one_hot_phase_shape (n_rows df) (Z.of_nat (length (concat (st_parts st)))) mx
              (sort_candidates (st_cands st))) as (_ & Ho1 & Ho2).
  fold oh in Ho1, Ho2.
  split.
  - rewrite concat_map, map_app, map_map, Ho1.
    rewrite (H1 eq_refl), map_app, map_map. reflexivity.
  - intros Hall.
    assert (Hv : Forall (fun c => length (col_cells c) = n_rows df) valid).
    { apply Forall_forall. intros c Hc. apply (proj1 (Forall_forall _ _) Hall), Hvd, Hc. }
    destruct (H2 Hv (Forall_nil _) (Forall_nil _)) as [Hp Hk].
    apply Forall_forall. intros p Hp'. apply in_concat in Hp' as (part & Hpart & Hin).
    apply in_app_iff in Hpart as [Hpart|Hpart].
    + apply (proj1 (Forall_forall _ _) (proj1 (Forall_forall _ _) Hp _ Hpart)), Hin.
    + apply in_map_iff in Hpart as (r & <- & Hr).
      assert (Hs : Forall (fun k => length (snd k) = n_rows df) (sort_candidates (st_cands st))).
      { apply Forall_forall. intros k Hk'.
        apply (Permutation_in _ (Permutation_sym (sort_candidates_perm _))) in Hk'.
        apply (proj1 (Forall_forall _ _) Hk), Hk'. }
      apply (proj1 (Forall_forall _ _) (proj1 (Forall_forall _ _) (Ho2 Hs) _ Hr)), Hin.
Qed.

(** ** One-hot rows *)

Lemma sum_indicator_str s l :
  NoDup l ->
  (sum_Q (map (fun v => if String.eqb s v then 1 else 0) l) == if existsb (String.eqb s) l then 1 else 0)%Q.
Proof.
  induction l as [|v l IH]; intros Hnd; [reflexivity|].
  inversion Hnd as [|? ? Hv Hnd']; subst. simpl.
  destruct (String.eqb s v) eqn:E; simpl.
  - apply String.eqb_eq in E; subst.
    assert (Hx : existsb (String.eqb v) l = false).
    { apply Bool.not_true_iff_false. intros Hx. apply existsb_exists in Hx as (w & Hw & Ew).
      apply String.eqb_eq in Ew; subst. contradiction. }
    specialize (IH Hnd'). rewrite Hx in IH. rewrite IH. reflexivity.
  - rewrite (IH Hnd'). destruct (existsb _ _); reflexivity.
Qed.

(** [pd.get_dummies(..., drop_first=True)]: one column [col_v] for every
    class [v] but the first (in sorted order); every value is 0 or 1; and
    in every row exactly one dummy is 1, except in the rows holding the
    first class, where all are 0. *)
Theorem one_hot_encode_rows col nuniq strs :
  let classes := le_classes strs in
  let dummies := fst (one_hot_encode col nuniq strs) in
  map fst dummies = map (fun v => (col ++ "_" ++ v)%string) (tl classes) /\
  Forall (fun d => Forall (fun x => x = 0%Q \/ x = 1%Q) (snd d)) dummies /\
  (forall j s, nth_error strs j = Some s ->
     (sum_Q (map (fun d => nth j (snd d) 0%Q) dummies)
      == if String.eqb s (hd ""%string classes) then 0 else 1)%Q).
Proof.
  cbv zeta. unfold one_hot_encode. cbn [fst]. split; [|split].
  - rewrite map_map. reflexivity.
  - apply Forall_forall. intros d Hd. apply in_map_iff in Hd as (v & <- & _).
    apply Forall_forall. intros x Hx. apply in_map_iff in Hx as (s & <- & _).
    destruct (String.eqb s v); [right|left]; reflexivity.
  - intros j s Hj. rewrite map_map. cbn [snd].
    assert (Hs : forall v, nth j (map (fun s' => if String.eqb s' v then 1%Q else 0%Q) strs) 0%Q
                           = if String.eqb s v then 1%Q else 0%Q).
    { intros v. apply nth_error_nth. rewrite nth_error_map, Hj. reflexivity. }
    rewrite (map_ext _ _ Hs).
    destruct (le_classes_spec strs) as (Hnd & _ & Hin).
    pose proof (proj2 (Hin s) (nth_error_In _ _ Hj)) as Hsin.
    destruct (le_classes strs) as [|c0 rest]; [destruct Hsin|].
    inversion Hnd as [|? ? Hc0 Hnd']; subst. cbn [tl hd].
    rewrite (sum_indicator_str s rest Hnd').
    destruct (String.eqb s c0) eqn:E.
    + apply String.eqb_eq in E; subst.
      destruct (existsb (String.eqb c0) rest) eqn:Ex; [|reflexivity].
      apply existsb_exists in Ex as (w & Hw & Ew). apply String.eqb_eq in Ew; subst. contradiction.
    + destruct Hsin as [->|Hsin]; [rewrite String.eqb_refl in E; discriminate|].
      replace (existsb (String.eqb s) rest) with true; [reflexivity|].
      symmetry. apply existsb_exists. exists s. split; [exact Hsin|apply String.eqb_refl].
Qed.

(** ** The encoder follows the classifier's suggestion *)

(** The per-column step of [encode_categoricals] ([encode_column], the
    body of its loop, with the default threshold of 10 and before the
    feature cap) chooses, for an object column whose values do not look
    like dates, the encoding [_classify_column] suggests for the preview,
    provided a boolean-like column is neither constant nor ID-like: the
    encoder tests those two skips before the boolean case, the classifier
    after it. Only columns with at least half of their values reach this
    step; [encode_categoricals] drops the others, which the classifier
    still gives a suggestion. *)
Theorem encoder_follows_classifier pr c :
  col_dtype c = DObject ->
  object_looks_datetime pr c = false ->
  (all_bool_like (col_cells c) = true ->
     1 < nunique (col_cells c) /\
     Qle_bool (inject_Z (nunique (col_cells c)) / inject_Z (Z.of_nat (length (col_cells c)))) (9 # 10) = true) ->
  action_encoding (encode_column pr (length (col_cells c)) 10 c)
    = cls_suggested_encoding (classify_column pr c).
Proof.
  intros Hd Hdt Hb. unfold encode_column, classify_column. rewrite Hd.
  cbn [is_numeric_dtype]. cbv beta iota zeta.
  unfold object_looks_datetime in Hdt. cbv zeta in Hdt. rewrite Hdt.
  destruct (all_bool_like (col_cells c)) eqn:Eb.
  - destruct (Hb eq_refl) as [H1 H2].
    assert (E1 : (nunique (col_cells c) <=? 1) = false) by (apply Z.leb_gt; lia).
    rewrite E1. unfold Qlt_bool. rewrite H2. rewrite andb_false_r. reflexivity.
  - destruct (nunique (col_cells c) <=? 1); [reflexivity|].
    destruct ((0 <? length (col_cells c))%nat &&
              Qlt_bool (9 # 10) (inject_Z (nunique (col_cells c)) / inject_Z (Z.of_nat (length (col_cells c)))));
      [reflexivity|].
    match goal with |- context [if (4 * ?a <? 5 * ?b)%nat then _ else _] => destruct (4 * a <? 5 * b)%nat end;
      [reflexivity|].
    destruct (nunique (col_cells c) <=? 10); reflexivity.
Qed.

(** ** [cluster]: the DBSCAN branch *)

Lemma remove_NoDup_length (y : Z) l :
  NoDup l -> In y l -> S (length (remove Z.eq_dec y l)) = length l.
Proof.
  induction l as [|x l IH]; intros Hnd Hy; [destruct Hy|].
  inversion Hnd as [|? ? Hx Hnd']; subst. simpl.
  destruct (Z.eq_dec y x) as [->|Ne].
  - rewrite notin_remove by exact Hx. reflexivity.
  - destruct Hy as [->|Hy]; [congruence|]. simpl. rewrite (IH Hnd' Hy). reflexivity.
Qed.

Lemma dbscan_cluster_count labels :
  Z.of_nat (length (set_Z labels)) - (if existsb (Z.eqb (-1)) labels then 1 else 0)
  = Z.of_nat (length (remove Z.eq_dec (-1) (set_Z labels))).
Proof.
  unfold set_Z. destruct (existsb (Z.eqb (-1)) labels) eqn:E.
  - apply existsb_exists in E as (x & Hx & Ex). apply Z.eqb_eq in Ex; subst.
    rewrite <- (remove_NoDup_length (-1) (nodup Z.eq_dec labels)); [lia|apply NoDup_nodup|].
    apply nodup_In, Hx.
  - rewrite notin_remove; [lia|]. intros Hin. apply nodup_In in Hin.
    assert (existsb (Z.eqb (-1)) labels = true) by (apply existsb_exists; exists (-1); split; [exact Hin|apply Z.eqb_refl]).
    congruence.
Qed.

Lemma py_round_4_floor q : (1 # 100 <= q)%Q -> (1 # 100 <= py_round q 4)%Q.
Proof.
  intros Hq. unfold py_round.
  assert (E : inject_Z (10 ^ 4) = 10000%Q) by reflexivity. rewrite E.
  assert (Hr : 100 <= round_half_even (q * 10000)).
  { assert (Ha : (inject_Z 100 <= q * 10000)%Q).
    { assert (H : (inject_Z 100 == (1 # 100) * 10000)%Q) by reflexivity. rewrite H.
      apply Qmult_le_compat_r; [exact Hq|discriminate]. }
    apply (proj1 (round_half_even_bounds 100 (Qceiling (q * 10000)) _ Ha (Qle_ceiling _))). }
  apply Qle_shift_div_l; [reflexivity|].
  assert (H : ((1 # 100) * 10000 == inject_Z 100)%Q) by reflexivity. rewrite H.
  rewrite <- Zle_Qle. exact Hr.
Qed.

(** [cluster] with DBSCAN: [n_clusters] is ignored; fewer than two rows
    make [NearestNeighbors] raise; on success the cluster count is the
    number of distinct labels other than the noise label -1, and the
    reported parameters are [min_samples = max(5, n // 100)] and an [eps]
    of at least 0.01 (the floor of [_auto_eps] survives rounding to four
    places). *)
Theorem cluster_dbscan {P} (B : Backend P) X nc :
  cluster B X "dbscan" nc = cluster B X "dbscan" None /\
  ((length X <= 1)%nat -> cluster B X "dbscan" nc = Raise LibraryError) /\
  (forall labels k sil params, cluster B X "dbscan" nc = Ok (labels, k, sil, params) ->
     k = Z.of_nat (length (remove Z.eq_dec (-1) (set_Z labels))) /\
     exists eps, params = PDBSCAN eps (Z.max 5 (Z.of_nat (length X) / 100)) /\ (1 # 100 <= eps)%Q).
Proof.
  unfold cluster, cluster_labels. cbn [String.eqb Ascii.eqb Bool.eqb andb].
  split; [reflexivity|]. split.
  - intros Hn. unfold auto_eps.
    replace (Z.min (Z.max 5 (Z.of_nat (length X) / 100)) (Z.of_nat (length X) - 1) <=? 0) with true
      by (symmetry; apply Z.leb_le; lia).
    reflexivity.
  - intros labels k sil params.
    unfold auto_eps.
    destruct (Z.min _ _ <=? 0); [discriminate|]. cbn [lib].
    destruct (dbscan_fit_predict B _ _ X) as [ls|]; [|discriminate]. cbn [lib].
    destruct (cluster_silhouette B X ls) as [s|e]; [|discriminate].
    intros H. injection H as <- <- <- <-. split; [apply dbscan_cluster_count|].
    eexists. split; [reflexivity|]. apply py_round_4_floor, Q.le_max_r.
Qed.

(** ** [preprocess]: missing columns and the returned frame *)

Lemma mapM_none {A B} (f : A -> option B) l x : In x l -> f x = None -> mapM f l = None.
Proof.
  induction l as [|y l IH]; simpl; [intros []|].
  intros [<-|Hx] Hf; [rewrite Hf; reflexivity|].
  destruct (f y); [rewrite (IH Hx Hf)|]; reflexivity.
Qed.

(** Selecting a name that is not a column raises [KeyError], as
    [df[columns]] does. *)
Theorem preprocess_missing_column pr df cs cats nm :
  In nm cs -> find_column nm (columns df) = None ->
  preprocess pr df (Some cs) cats = Raise (KeyError "columns").
Proof.
  intros Hin Hf. unfold preprocess.
  destruct cs as [|c0 cs0]; [destruct Hin|].
  rewrite (mapM_none (fun c => find_column c (columns df)) _ nm Hin Hf). reflexivity.
Qed.

Lemma insert_Q_length x l : length (insert_Q x l) = S (length l).
Proof. induction l as [|y l IH]; simpl; [reflexivity|]. destruct (Qle_bool x y); simpl; [reflexivity|rewrite IH; reflexivity]. Qed.

Lemma sort_Q_length l : length (sort_Q l) = length l.
Proof. induction l as [|x l IH]; simpl; [reflexivity|]. rewrite insert_Q_length, IH. reflexivity. Qed.

Lemma median_Q_none l : median_Q l = None -> l = [].
Proof.
  unfold median_Q. rewrite sort_Q_length. destruct l as [|x l]; [reflexivity|].
  cbv zeta. destruct (Nat.odd _); discriminate.
Qed.

Lemma somes_nil vs : somes vs = [] -> Forall (fun o => o = None) vs.
Proof.
  induction vs as [|[q|] vs IH]; simpl; [constructor|discriminate|].
  intros H. constructor; [reflexivity|apply IH, H].
Qed.

(** [fillna(median)] leaves a column either with no NaN or all NaN. *)
Lemma fill_median_dich vs :
  let vs' := map (fun o => match o with Some q => Some q | None => median_Q (somes vs) end) vs in
  Forall (fun o => o <> None) vs' \/ Forall (fun o => o = None) vs'.
Proof.
  cbv zeta. destruct (median_Q (somes vs)) as [m|] eqn:E.
  - left. apply Forall_forall. intros o Ho. apply in_map_iff in Ho as ([q|] & <- & _); discriminate.
  - right. apply median_Q_none, somes_nil in E.
    apply Forall_forall. intros o Ho. apply in_map_iff in Ho as (o' & <- & Ho').
    rewrite (proj1 (Forall_forall _ _) E o' Ho'). reflexivity.
Qed.

(** A successful [preprocess] returns the frame its [feature_names] name,
    column by column, and every returned column is either free of NaN or
    entirely NaN (median imputation cannot fill a column with no value
    left). *)
Theorem preprocess_ok_result pr df cs cats r :
  preprocess pr df cs cats = Ok r ->
  feature_names r = map fst (pp_numeric_df r) /\
  Forall (fun p => Forall (fun o => o <> None) (snd p) \/ Forall (fun o => o = None) (snd p))
         (pp_numeric_df r).
Proof.
  unfold preprocess.
  destruct (match cs with None => _ | Some _ => _ end) as [ncols|e]; [|discriminate].
  cbv zeta.
  set (D := fun p : string * list (option Q) =>
              Forall (fun o => o <> None) (snd p) \/ Forall (fun o => o = None) (snd p)).
  match goal with |- context [match ?x with (_, _) => _ end] =>
    assert (Hx : Forall D (snd x)); [|destruct x as [[ei dc] comb]] end.
  - assert (Himp : forall (rm : list bool) kept,
              Forall D (map (fun '(name, vs) =>
                  (name, map (fun o => match o with Some q => Some q
                                       | None => median_Q (somes (select_mask rm vs)) end)
                             (select_mask rm vs))) kept)).
    { intros rm kept. apply Forall_forall. intros p Hp.
      apply in_map_iff in Hp as ([nm vs] & <- & _). apply fill_median_dich. }
    destruct cats as [[|c cats']|]; cbv iota beta; cbn [snd]; try apply Himp.
    set (ec := encoded_cols _).
    destruct ec as [|e0 es]; [apply Himp|].
    match goal with |- context [match ?m with O => _ | S _ => _ end] => destruct m end; [apply Himp|].
    apply Forall_app; split; [apply Himp|].
    apply Forall_forall; intros p Hp; apply in_map_iff in Hp as ([nm vs] & <- & _).
    left. apply Forall_forall. intros o Ho. apply in_map_iff in Ho as (q & <- & _). discriminate.
  - cbn [snd] in Hx.
    match goal with |- context [if (?a <? 2)%nat then _ else _] => destruct (a <? 2)%nat end;
      [discriminate|].
    match goal with |- context [if (?a =? 0)%nat then _ else _] => destruct (a =? 0)%nat end;
      [discriminate|].
    intros H. injection H as <-. cbn [feature_names pp_numeric_df].
    split; [reflexivity|].
    apply Forall_forall. intros p Hp. apply filter_In in Hp as [Hp _].
    apply (proj1 (Forall_forall _ _) Hx p Hp).
Qed.


(** ** [_cache_path] *)

Lemma sanitize_id_valid s : Forall (fun c => id_char c = true) (sanitize_id s).
Proof.
  unfold sanitize_id. apply Forall_map, Forall_forall. intros c _.
  destruct (id_char c) eqn:E; [exact E|reflexivity].
Qed.

Lemma sanitize_id_idem s : sanitize_id (sanitize_id s) = sanitize_id s.
Proof.
  unfold sanitize_id. rewrite map_map. apply map_ext. intros c.
  destruct (id_char c) eqn:E; [rewrite E; reflexivity|reflexivity].
Qed.

(** The cache directory of a dataset is one component below the cache
    root: for a source without '/', the component [source_safeid] has no
    '/' and is neither "." nor ".."; ids that sanitize alike (such as
    "a/b" and "a_b") share the directory. *)
Theorem cache_component_safe source dataset_id :
  (~ In 47 source ->
   ~ In 47 (cache_component source dataset_id) /\
   cache_component source dataset_id <> code_points "." /\
   cache_component source dataset_id <> code_points "..") /\
  cache_component source (sanitize_id dataset_id) = cache_component source dataset_id.
Proof.
  split.
  - intros Hs.
    assert (H95 : In 95 (cache_component source dataset_id))
      by (unfold cache_component; apply in_app_iff; right; left; reflexivity).
    split; [|split].
    + unfold cache_component. intros H. apply in_app_iff in H as [H|[H|H]]; [contradiction|discriminate|].
      pose proof (proj1 (Forall_forall _ _) (sanitize_id_valid dataset_id) 47 H). discriminate.
    + intros E. rewrite E in H95. vm_compute in H95. destruct H95 as [H|[]]; discriminate.
    + intros E. rewrite E in H95. vm_compute in H95. destruct H95 as [H|[H|[]]]; discriminate.
  - unfold cache_component. rewrite sanitize_id_idem. reflexivity.
Qed.


(** ** Witnesses *)

Lemma cluster_silhouette_presence_witness :
  exists sil,
    cluster (table_backend collapse_table) collapse_X "kmeans" (Some 2)
      = Ok ([0; 0; 0; 0; 0; 0; 1; 1; 1], 2, sil, PKMeans 2 10) /\ sil <> None.
Proof.
  destruct (cluster_silhouette_presence (table_backend collapse_table) collapse_X "kmeans" (Some 2)
              [0; 0; 0; 0; 0; 0; 1; 1; 1] 2 (PKMeans 2 10) eq_refl eq_refl) as (sil & H & Hiff).
  exists sil. split; [exact H|]. apply Hiff. split; vm_compute; congruence.
Defined.

Lemma profile_clusters_partition_witness :
  exists ps, profile_clusters [] [0; 1; 0] [] [] = Some ps /\
             sum_Z (map size ps) = 3 /\ map cluster_id ps = [0; 1].
Proof.
  set (ps := match profile_clusters [] [0; 1; 0] [] [] with Some ps => ps | None => [] end).
  assert (H : profile_clusters [] [0; 1; 0] [] [] = Some ps) by (vm_compute; reflexivity).
  destruct (profile_clusters_partition [] [0; 1; 0] [] [] ps H) as (_ & _ & Hs & _).
  exists ps. split; [exact H|]. split; [exact Hs|vm_compute; reflexivity].
Defined.

Lemma profile_clusters_ascending_witness :
  exists ps, profile_clusters [] [0; -1; 1; 0] [] [] = Some ps /\
             hd_error (map cluster_id ps) = Some (-1).
Proof.
  set (ps := match profile_clusters [] [0; -1; 1; 0] [] [] with Some ps => ps | None => [] end).
  assert (H : profile_clusters [] [0; -1; 1; 0] [] [] = Some ps) by (vm_compute; reflexivity).
  destruct (profile_clusters_ascending [] [0; -1; 1; 0] [] [] ps H) as (_ & Hd).
  exists ps. split; [exact H|]. apply Hd.
  - simpl; tauto.
  - repeat constructor; lia.
Defined.

Lemma label_encoding_sorted_mapping_witness :
  exists info,
    In info (encoding_info (encode_categoricals plain_parsers fruit_frame ["fruit"%string] 10 100)) /\
    encoding_type info = EncLabel /\
    exists c, In c (columns fruit_frame) /\ find_column (col_name c) (columns fruit_frame) = Some c /\
      In (col_name c) ["fruit"%string] /\ original_column info = col_name c /\
      let strs := map (fun x => match x with CNull => "MISSING"%string | _ => py_str plain_parsers x end)
                      (col_cells c) in
      label_mapping info = Some (le_classes strs) /\
      In (col_name c, map (fun s => inject_Z (Z.of_nat (index_of s (le_classes strs)))) strs)
         (encoded_cols (encode_categoricals plain_parsers fruit_frame ["fruit"%string] 10 100)).
Proof.
  set (info := hd (Build_EncodingInfo "" EncLabel [] 0 None)
                  (encoding_info (encode_categoricals plain_parsers fruit_frame ["fruit"%string] 10 100))).
  assert (H1 : In info (encoding_info (encode_categoricals plain_parsers fruit_frame ["fruit"%string] 10 100)))
    by (vm_compute; left; reflexivity).
  assert (H2 : encoding_type info = EncLabel) by (vm_compute; reflexivity).
  exists info. split; [exact H1|]. split; [exact H2|].
  exact (proj2 label_encoding_sorted_mapping _ _ _ _ _ _ H1 H2).
Defined.

Lemma one_hot_cap_rule_witness :
  length (le_classes (cap_values "a")) = 60%nat /\
  length (le_classes (cap_values "b")) = 60%nat /\
  map (fun r => encoding_type (snd r))
      (one_hot_phase 0 100 (sort_candidates [("cat_a"%string, 60, cap_values "a");
                                             ("cat_b"%string, 60, cap_values "b")]))
    = [EncOneHot; EncLabel].
Proof.
  assert (Ha : length (le_classes (cap_values "a")) = 60%nat) by (vm_compute; reflexivity).
  assert (Hb : length (le_classes (cap_values "b")) = 60%nat) by (vm_compute; reflexivity).
  split; [exact Ha|]. split; [exact Hb|].
  exact (proj1 (proj1 (proj2 (proj2 (proj2 one_hot_cap_rule))) "cat_a"%string "cat_b"%string
                  (cap_values "a") (cap_values "b") Ha Hb)).
Defined.

Lemma encode_categoricals_selection_witness :
  NoDup (col_names sparse_cat_frame) /\
  2 * count_non_null [CStr "x"; CNull; CNull; CNull] < 4 /\
  ~ In "s"%string (map original_column
                     (encoding_info (encode_categoricals plain_parsers sparse_cat_frame ["s"; "t"]%string 10 100))).
Proof.
  assert (Hnd : NoDup (col_names sparse_cat_frame)).
  { vm_compute. constructor; [intros [H|[]]; discriminate|constructor; [intros []|constructor]]. }
  assert (Hc : 2 * count_non_null [CStr "x"; CNull; CNull; CNull] < 4) by (vm_compute; reflexivity).
  split; [exact Hnd|]. split; [exact Hc|].
  exact (proj2 (encode_categoricals_selection plain_parsers sparse_cat_frame ["s"; "t"]%string 10 100) Hnd
           {| col_name := "s"; col_dtype := DObject; col_cells := [CStr "x"; CNull; CNull; CNull] |}
           (or_introl eq_refl) Hc).
Defined.

Lemma boolean_columns_witness :
  encode_column plain_parsers 4 10 (flag_column [CBool true; CBool false; CNull; CBool true]) =
    AEncode [("flag"%string, [1; 0; 0; 1]%Q)]
      {| original_column := "flag"; encoding_type := EncBoolean; new_columns := ["flag"%string];
         cardinality := 2; label_mapping := None |}.
Proof.
  set (c := flag_column [CBool true; CBool false; CNull; CBool true]).
  assert (Hd : col_dtype c = DBool \/ (col_dtype c = DObject /\ all_bool_like (col_cells c) = true))
    by (right; split; vm_compute; reflexivity).
  assert (Hn : 1 < nunique (col_cells c)) by (vm_compute; reflexivity).
  assert (Hr : (0 < 4)%nat -> (inject_Z (nunique (col_cells c)) / inject_Z (Z.of_nat 4) <= 9 # 10)%Q)
    by (intros _; vm_compute; discriminate).
  exact (proj1 (proj2 boolean_columns) plain_parsers 4%nat 10 c Hd Hn Hr).
Defined.

Lemma sanitize_id_safe_witness :
  Forall (fun c => id_char c = true) (code_points "iris_1-v2") /\
  sanitize_id (code_points "iris_1-v2") = code_points "iris_1-v2".
Proof.
  assert (H : Forall (fun c => id_char c = true) (code_points "iris_1-v2"))
    by (vm_compute; repeat constructor).
  split; [exact H|].
  exact (proj1 (proj2 (proj2 (proj2 (proj2 (proj2 (sanitize_id_safe (code_points "iris_1-v2"))))))) H).
Defined.

Lemma validate_content_spec_witness :
  validate_content (code_points "name,age") = Ok tt /\
  validate_content ([32; 10] ++ code_points "<HTML" ++ code_points "><body>") = Raise (ValueError html_error) /\
  validate_content ([] ++ code_points "<?XML" ++ code_points " version") = Raise (ValueError xml_error).
Proof.
  split; [|split].
  - apply (proj1 validate_content_spec). vm_compute. intros H. discriminate H.
  - apply (proj1 (proj2 validate_content_spec)).
    + repeat constructor.
    + apply Nat.leb_le. vm_compute. reflexivity.
    + right. vm_compute. reflexivity.
  - apply (proj2 (proj2 validate_content_spec)).
    + constructor.
    + apply Nat.leb_le. vm_compute. reflexivity.
    + vm_compute. reflexivity.
Defined.

Lemma extract_zip_largest_witness :
  extract_zip ["notes.txt"; "__MACOSX/x.csv"]%string zip_size
    = Raise (ValueError "No supported data files found in zip archive") /\
  extract_zip zip_names zip_size = Ok "table.json"%string /\
  (forall g, In g zip_names -> is_data_file g = true -> zip_size g <= 9).
Proof.
  split; [|split].
  - apply (proj2 (proj1 (extract_zip_largest ["notes.txt"; "__MACOSX/x.csv"]%string zip_size))).
    repeat constructor.
  - vm_compute. reflexivity.
  - assert (H : extract_zip zip_names zip_size = Ok "table.json"%string) by (vm_compute; reflexivity).
    exact (proj1 (proj2 (proj2 (proj2 (extract_zip_largest zip_names zip_size) _ H)))).
Defined.

Lemma build_preview_counts_witness :
  Forall (fun c => length (col_cells c) = n_rows fruit_frame) (columns fruit_frame) /\
  length (sample_rows (build_preview plain_parsers fruit_frame)) = 5%nat.
Proof.
  assert (H : Forall (fun c => length (col_cells c) = n_rows fruit_frame) (columns fruit_frame))
    by (vm_compute; repeat constructor).
  split; [exact H|].
  exact (proj1 (proj2 (proj2 (build_preview_counts plain_parsers fruit_frame H)))).
Defined.

Lemma build_preview_lists_witness :
  NoDup (col_names sparse_cat_frame) /\
  In "t"%string (pv_categorical_columns (build_preview plain_parsers sparse_cat_frame)) /\
  cls_is_id_like (classify_column plain_parsers (str_column "t" ["u"; "v"; "u"; "v"]%string)) = false.
Proof.
  assert (Hnd : NoDup (col_names sparse_cat_frame)).
  { vm_compute. constructor; [intros [H|[]]; discriminate|constructor; [intros []|constructor]]. }
  assert (Hin : In "t"%string (pv_categorical_columns (build_preview plain_parsers sparse_cat_frame)))
    by (vm_compute; left; reflexivity).
  split; [exact Hnd|]. split; [exact Hin|].
  exact (proj1 (proj2 (proj2 (build_preview_lists plain_parsers sparse_cat_frame Hnd
           (str_column "t" ["u"; "v"; "u"; "v"]%string) (or_intror (or_introl eq_refl))))) Hin).
Defined.

Lemma classify_column_consistent_witness :
  cls_suggested_encoding (classify_column plain_parsers (str_column "t" ["u"; "v"; "u"; "v"]%string))
    = Some EncOneHot /\
  exists k, cls_cardinality (classify_column plain_parsers (str_column "t" ["u"; "v"; "u"; "v"]%string))
              = Some k /\ 2 <= k <= 10.
Proof.
  assert (H : cls_suggested_encoding (classify_column plain_parsers (str_column "t" ["u"; "v"; "u"; "v"]%string))
                = Some EncOneHot) by (vm_compute; reflexivity).
  split; [exact H|].
  exact (proj1 (proj2 (proj2 (classify_column_consistent plain_parsers
           (str_column "t" ["u"; "v"; "u"; "v"]%string)))) H).
Defined.

Lemma encode_categoricals_shape_witness :
  Forall (fun c => length (col_cells c) = n_rows fruit_frame) (columns fruit_frame) /\
  Forall (fun p => length (snd p) = 22%nat)
         (encoded_cols (encode_categoricals plain_parsers fruit_frame ["fruit"%string] 10 100)).
Proof.
  assert (H : Forall (fun c => length (col_cells c) = n_rows fruit_frame) (columns fruit_frame))
    by (vm_compute; repeat constructor).
  split; [exact H|].
  exact (proj2 (encode_categoricals_shape plain_parsers fruit_frame ["fruit"%string] 10 100) H).
Defined.

Lemma one_hot_encode_rows_witness :
  nth_error ["red"; "blue"; "red"; "green"]%string 1 = Some "blue"%string /\
  (sum_Q (map (fun d => nth 1 (snd d) 0%Q) (fst (one_hot_encode "color" 3 ["red"; "blue"; "red"; "green"]%string)))
     == 0)%Q /\
  (sum_Q (map (fun d => nth 0 (snd d) 0%Q) (fst (one_hot_encode "color" 3 ["red"; "blue"; "red"; "green"]%string)))
     == 1)%Q.
Proof.
  split; [reflexivity|]. split.
  - exact (proj2 (proj2 (one_hot_encode_rows "color" 3 ["red"; "blue"; "red"; "green"]%string))
             1%nat "blue"%string eq_refl).
  - exact (proj2 (proj2 (one_hot_encode_rows "color" 3 ["red"; "blue"; "red"; "green"]%string))
             0%nat "red"%string eq_refl).
Defined.

Lemma encoder_follows_classifier_witness :
  action_encoding (encode_column plain_parsers 4 10 (flag_column [CBool true; CBool false; CNull; CBool true]))
    = Some EncBoolean /\
  action_encoding (encode_column plain_parsers 4 10 (flag_column [CBool true; CBool false; CNull; CBool true]))
    = cls_suggested_encoding (classify_column plain_parsers (flag_column [CBool true; CBool false; CNull; CBool true])).
Proof.
  split; [vm_compute; reflexivity|].
  apply (encoder_follows_classifier plain_parsers (flag_column [CBool true; CBool false; CNull; CBool true])).
  - reflexivity.
  - vm_compute. reflexivity.
  - intros _. split; vm_compute; reflexivity.
Defined.

Lemma cluster_dbscan_witness :
  cluster (table_backend collapse_table) [0%Q] "dbscan" (Some 3) = Raise LibraryError /\
  cluster (table_backend collapse_table) collapse_X "dbscan" None
    = Ok (repeat 0 9, 1, None, PDBSCAN (py_round 1 4) 5) /\
  1 = Z.of_nat (length (remove Z.eq_dec (-1) (set_Z (repeat 0 9)))).
Proof.
  split; [|split].
  - apply (proj1 (proj2 (cluster_dbscan (table_backend collapse_table) [0%Q] (Some 3)))).
    apply le_n.
  - vm_compute. reflexivity.
  - assert (H : cluster (table_backend collapse_table) collapse_X "dbscan" None
                  = Ok (repeat 0 9, 1, None, PDBSCAN (py_round 1 4) 5)) by (vm_compute; reflexivity).
    exact (proj1 (proj2 (proj2 (cluster_dbscan (table_backend collapse_table) collapse_X None)) _ _ _ _ H)).
Defined.

Lemma preprocess_missing_column_witness :
  preprocess plain_parsers sparse_frame (Some ["a"; "zz"]%string) None = Raise (KeyError "columns").
Proof.
  apply (preprocess_missing_column plain_parsers sparse_frame ["a"; "zz"]%string None "zz"%string).
  - right. left. reflexivity.
  - vm_compute. reflexivity.
Defined.

Lemma preprocess_ok_result_witness :
  exists r, preprocess plain_parsers sparse_frame None None = Ok r /\
            feature_names r = map fst (pp_numeric_df r) /\
            Forall (fun p => Forall (fun o => o <> None) (snd p) \/ Forall (fun o => o = None) (snd p))
                   (pp_numeric_df r).
Proof.
  set (r := match preprocess plain_parsers sparse_frame None None with
            | Ok r => r
            | Raise _ => {| pp_numeric_df := []; feature_names := []; pp_encoding_info := [];
                            dropped_columns := [] |} end).
  assert (H : preprocess plain_parsers sparse_frame None None = Ok r) by (vm_compute; reflexivity).
  destruct (preprocess_ok_result plain_parsers sparse_frame None None r H) as (H1 & H2).
  exists r. split; [exact H|]. split; assumption.
Defined.

Lemma cache_component_safe_witness :
  ~ In 47 (code_points "uci") /\
  ~ In 47 (cache_component (code_points "uci") (code_points "../etc")) /\
  cache_component (code_points "uci") (code_points "a/b") =
  cache_component (code_points "uci") (code_points "a_b").
Proof.
  assert (H : ~ In 47 (code_points "uci")) by (vm_compute; intuition congruence).
  split; [exact H|split].
  - exact (proj1 (proj1 (cache_component_safe (code_points "uci") (code_points "../etc")) H)).
  - rewrite <- (proj2 (cache_component_safe (code_points "uci") (code_points "a/b"))).
    vm_compute. reflexivity.
Defined.

Lemma encode_categoricals_accounts_witness :
  NoDup ["fruit"; "zz"]%string /\ NoDup (col_names fruit_frame) /\
  Permutation
    (map original_column (encoding_info (encode_categoricals plain_parsers fruit_frame ["fruit"; "zz"]%string 10 100))
     ++ map fst (skipped_columns (encode_categoricals plain_parsers fruit_frame ["fruit"; "zz"]%string 10 100)))
    ["fruit"%string].
Proof.
  assert (H1 : NoDup ["fruit"; "zz"]%string) by (repeat constructor; simpl; intuition discriminate).
  assert (H2 : NoDup (col_names fruit_frame)) by (vm_compute; repeat constructor; simpl; intuition discriminate).
  split; [exact H1|]. split; [exact H2|].
  exact (encode_categoricals_accounts plain_parsers fruit_frame ["fruit"; "zz"]%string 10 100 H1 H2).
Defined.

